(** * The orchestration core of the Qwen code interpreter

    A shallow embedding of [src/lib/llm.ts] (the current revision, with
    the error-recovery loop) and of the earlier revision of the same
    module (which still has [generateExplanation]), together with the
    properties of the streaming, execution and recovery logic.

    Conventions of the embedding.

    - A JavaScript string is a [string] holding the UTF-8 encoding of its
      text.  Concatenation, comparison with a literal and the emptiness
      test do not depend on the encoding; [trim] is written out for the
      UTF-8 encodings of the ECMAScript white space and line terminators.
    - A value that may be [undefined] or [null] is a [nullable].
    - The inference engine and the Python sandbox are external: their
      behaviour is a transition on an abstract [World].
    - Every callback invocation and every call to an external collaborator
      is recorded, in order, in the [trace] of the state.
    - An [async] function is a computation in the monad [M]; [await] is
      sequencing.  The outcome of a computation is the settlement of the
      function's own promise; its state is what the computation, and
      everything it has started, leads to.
    - [streamResponse] calls [onFinish] without awaiting it.  The
      [onFinish] closures of [handleUserInput] and [handleCodeError] are
      [async]: such a call is [detached], the caller goes on at once,
      whatever becomes of the closure's promise, and the promises of
      [streamResponse], [handleCodeError], [runAndExplainCode] and
      [handleUserInput] are fulfilled while the closure is still at work.
      Nothing follows the call in any caller, and nothing else writes to
      the trace or to the conversation, so the order of the events and of
      the pushes is the order in which the detached closure makes them.
    - The recovery loop is recursive without bound, so the recursive
      functions take a [fuel]: the number of executions of code that are
      followed.  Where the fuel runs out the state reached is kept; the
      call left unfollowed is inside a detached closure, so the outcome
      of every caller is the one it has in the source.  [Pending] is the
      outcome only of a call that is not followed at all. *)

From Stdlib Require Import String Ascii List Bool Arith NArith Lia.
Import ListNotations.

Set Implicit Arguments.

Infix "+++" := String.append (right associativity, at level 60).

(** ** JavaScript values *)

Module Js.

Inductive nullable (A : Type) : Type :=
| undefined : nullable A
| null : nullable A
| value : A -> nullable A.
Arguments undefined {A}.
Arguments null {A}.
Arguments value {A} _.

(** [x != null]: false for [undefined] and [null] only. *)
Definition not_nullish {A} (x : nullable A) : bool :=
  match x with value _ => true | _ => false end.

(** Truthiness of a string: every string but the empty one. *)
Definition truthy (s : string) : bool :=
  match s with EmptyString => false | String _ _ => true end.

(** Truthiness of a possibly missing string. *)
Definition truthy_str (x : nullable string) : bool :=
  match x with value s => truthy s | _ => false end.

(** Truthiness of a possibly missing object. *)
Definition truthy_obj {A} (x : nullable A) : bool := not_nullish x.

(** A value inside a template literal: [`${x}`]. *)
Definition template (x : nullable string) : string :=
  match x with
  | undefined => "undefined"
  | null => "null"
  | value s => s
  end.

Definition nl : string := String (ascii_of_nat 10) EmptyString.

(** *** [String.prototype.trim] *)

(** One-byte white space and line terminators:
    TAB, LF, VT, FF, CR and SPACE. *)
Definition ws1 (a : ascii) : bool :=
  let n := nat_of_ascii a in
  (9 <=? n) && (n <=? 13) || (n =? 32).

(** Two bytes: U+00A0 is C2 A0. *)
Definition ws2 (a b : ascii) : bool :=
  (nat_of_ascii a =? 194) && (nat_of_ascii b =? 160).

(** Three bytes: U+1680 is E1 9A 80; U+2000 to U+200A are E2 80 80 to
    E2 80 8A; U+2028, U+2029 and U+202F are E2 80 A8, A9 and AF;
    U+205F is E2 81 9F; U+3000 is E3 80 80; U+FEFF is EF BB BF. *)
Definition ws3 (a b c : ascii) : bool :=
  let x := nat_of_ascii a in
  let y := nat_of_ascii b in
  let z := nat_of_ascii c in
  (x =? 225) && (y =? 154) && (z =? 128)
  || (x =? 226) && (y =? 128)
     && ((128 <=? z) && (z <=? 138) || (z =? 168) || (z =? 169) || (z =? 175))
  || (x =? 226) && (y =? 129) && (z =? 159)
  || (x =? 227) && (y =? 128) && (z =? 128)
  || (x =? 239) && (y =? 187) && (z =? 191).

Fixpoint trimStart (s : string) : string :=
  match s with
  | String a r =>
      if ws1 a then trimStart r
      else
        match r with
        | String b r2 =>
            if ws2 a b then trimStart r2
            else
              match r2 with
              | String c r3 => if ws3 a b c then trimStart r3 else s
              | EmptyString => s
              end
        | EmptyString => s
        end
  | EmptyString => s
  end.

Fixpoint rev_onto (s acc : string) : string :=
  match s with
  | EmptyString => acc
  | String a r => rev_onto r (String a acc)
  end.

Definition rev (s : string) : string := rev_onto s EmptyString.

(** The same scan from the end, on the reversed text: the bytes of a
    character arrive last byte first. *)
Fixpoint trimStart_rev (s : string) : string :=
  match s with
  | String a r =>
      if ws1 a then trimStart_rev r
      else
        match r with
        | String b r2 =>
            if ws2 b a then trimStart_rev r2
            else
              match r2 with
              | String c r3 => if ws3 c b a then trimStart_rev r3 else s
              | EmptyString => s
              end
        | EmptyString => s
        end
  | EmptyString => s
  end.

Definition trimEnd (s : string) : string := rev (trimStart_rev (rev s)).

Definition trim (s : string) : string := trimEnd (trimStart s).

End Js.

Import Js.

(** ** Data model *)

Inductive Role : Type := system | user | assistant.

Record Message : Type := mkMessage { role : Role; content : string }.

Record Error : Type := mkError { message : string }.

(** The sandbox's answer, [PyodideResult]: [{ results, error }] with
    [results = { stdout, result }]. *)
Record ExecResults : Type := mkExecResults {
  stdout : nullable string;
  result : nullable string
}.

Record PyodideResult : Type := mkPyodideResult {
  results : nullable ExecResults;
  error : nullable string
}.

(** The settlement of a promise. *)
Inductive Settled (A : Type) : Type :=
| Fulfilled : A -> Settled A
| Rejected : Error -> Settled A.
Arguments Fulfilled {A} _.
Arguments Rejected {A} _.

(** How an asynchronous computation stands when it is observed: it
    returned, it threw, or it has not finished within its fuel. *)
Inductive Completion (A : Type) : Type :=
| Normal : A -> Completion A
| Thrown : Error -> Completion A
| Pending : Completion A.
Arguments Normal {A} _.
Arguments Thrown {A} _.
Arguments Pending {A}.

Definition MAX_CONTEXT_LENGTH : N := 32768.

(** The argument of [engine.chat.completions.create]. *)
Record CompletionRequest : Type := mkRequest {
  req_stream : bool;
  req_messages : list Message;
  req_max_tokens : option N;
  req_include_usage : bool
}.

Section Model.

(** [webllm.CompletionUsage] is only forwarded. *)
Context {Usage : Type}.
(** The state of the engine and of the sandbox. *)
Context {World : Type}.

Record Chunk : Type := mkChunk {
  delta : option string;          (* chunk.choices[0]?.delta.content *)
  usage : option Usage            (* chunk.usage *)
}.

(** The chunks of one completion, as the [for await] loop meets them:
    the iteration ends, or throws, after finitely many chunks. *)
Inductive AsyncIter : Type :=
| IterEnd : AsyncIter
| IterThrow : Error -> AsyncIter
| IterYield : Chunk -> AsyncIter -> AsyncIter.

Record MLCEngine : Type := mkEngine {
  create : CompletionRequest -> World -> Settled AsyncIter * World;
  getMessage : World -> Settled string * World
}.

(** What a turn runs against: the module-level [engine] (or [null]),
    the imported [extractCodeFromMarkdown] and the caller's
    [executePython]. *)
Record Env : Type := mkEnv {
  engine : option MLCEngine;
  extractCodeFromMarkdown : string -> nullable string;
  executePython : string -> World -> Settled PyodideResult * World
}.

Inductive Event : Type :=
(* the StreamingCallbacks *)
| OnResultUpdate : string -> Event
| OnCodeOutputUpdate : string -> Event
| OnExplanationUpdate : string -> Event
| OnErrorUpdate : bool -> Event
| OnUsageUpdate : Usage -> Event
(* console.error *)
| ConsoleError : Error -> Event
(* calls to the collaborators *)
| EngineCreate : CompletionRequest -> Event
| EngineGetMessage : Event
| ExecutePython : string -> Event
(* plain recording callbacks for streamResponse on its own *)
| OnUpdate : string -> Event
| OnFinish : string -> Usage -> Event
| OnError : Error -> Event.

Record State : Type := mkState {
  world : World;
  conversation : list Message;    (* the turn's one shared messages array *)
  trace : list Event
}.

(** *** The monad of asynchronous computations *)

Definition M (A : Type) : Type := State -> Completion A * State.

Definition ret {A} (a : A) : M A := fun st => (Normal a, st).

Definition bind {A B} (m : M A) (k : A -> M B) : M B :=
  fun st =>
    match m st with
    | (Normal a, st') => k a st'
    | (Thrown e, st') => (Thrown e, st')
    | (Pending, st') => (Pending, st')
    end.

Definition throw {A} (e : Error) : M A := fun st => (Thrown e, st).

Definition pending {A} : M A := fun st => (Pending, st).

Definition try_catch {A} (m : M A) (h : Error -> M A) : M A :=
  fun st =>
    match m st with
    | (Thrown e, st') => h e st'
    | r => r
    end.

(** A call of an [async] function whose promise nobody awaits.  The
    caller goes on at once: the call itself returns, whether the promise
    is later fulfilled, is rejected (an unhandled rejection) or has not
    settled yet.  The state is the one the detached computation leads
    to: what it does is done, in its order, though after the caller has
    gone on. *)
Definition detached {A} (m : M A) : M unit :=
  fun st => (Normal tt, snd (m st)).

Definition emit (ev : Event) : M unit :=
  fun st => (Normal tt, mkState (world st) (conversation st) (trace st ++ [ev])).

Definition push (m : Message) : M unit :=
  fun st => (Normal tt, mkState (world st) (conversation st ++ [m]) (trace st)).

Definition new_array (ms : list Message) : M unit :=
  fun st => (Normal tt, mkState (world st) ms (trace st)).

Definition get_messages : M (list Message) :=
  fun st => (Normal (conversation st), st).

(** [await] of a call to a collaborator: the world moves, a rejection
    is thrown. *)
Definition await {A} (call : World -> Settled A * World) : M A :=
  fun st =>
    match call (world st) with
    | (Fulfilled a, w) => (Normal a, mkState w (conversation st) (trace st))
    | (Rejected e, w) => (Thrown e, mkState w (conversation st) (trace st))
    end.

End Model.

Arguments M : clear implicits.
Arguments Chunk : clear implicits.
Arguments AsyncIter : clear implicits.
Arguments Event : clear implicits.
Arguments MLCEngine : clear implicits.
Arguments Env : clear implicits.
Arguments State : clear implicits.

Declare Scope js_scope.
Delimit Scope js_scope with js.
Notation "x <- m ;; k" := (bind m (fun x => k))
  (at level 61, m at next level, right associativity) : js_scope.
Notation "m ;; k" := (bind m (fun _ => k))
  (at level 61, right associativity) : js_scope.
Open Scope js_scope.
Open Scope string_scope.
Open Scope list_scope.

(** ** The Completion Streamer: [streamResponse]

    The two revisions of the module differ in one option of the request,
    [max_tokens]; the rest of the function is shared here. *)

Section Streamer.

Context {Usage World : Type}.
Local Abbreviation M := (M Usage World).
Variable env : Env Usage World.

(** The body of [for await (const chunk of completion)]. *)
Fixpoint for_await (completion : AsyncIter Usage)
    (onUpdate : string -> M unit)
    (currentMessage : string) (usage_ : option Usage)
  : M (string * option Usage) :=
  match completion with
  | IterEnd => ret (currentMessage, usage_)
  | IterThrow e => throw e
  | IterYield chunk rest =>
      let currentMessage :=
        match delta chunk with
        | Some d => if truthy d then currentMessage +++ d else currentMessage
        | None => currentMessage
        end in
      let usage_ :=
        match usage chunk with
        | Some u => Some u
        | None => usage_
        end in
      onUpdate currentMessage ;;
      for_await rest onUpdate currentMessage usage_
  end.

Definition streamResponse_with (max_tokens : option N)
    (messages : list Message)
    (onUpdate : string -> M unit)
    (onFinish : string -> Usage -> M unit)
    (onError : Error -> M unit) : M unit :=
  match engine env with
  | None => onError (mkError "Engine not initialized")
  | Some eng =>
      try_catch
        (let request := mkRequest true messages max_tokens true in
         emit (EngineCreate request) ;;
         completion <- await (create eng request) ;;
         r <- for_await completion onUpdate "" None ;;
         emit EngineGetMessage ;;
         finalMessage <- await (getMessage eng) ;;
         match snd r with
         | Some u => onFinish finalMessage u
         | None => throw (mkError "Usage data not available")
         end)
        onError
  end.

End Streamer.

(** ** [src/lib/llm.ts] *)

Module Llm.
Section Llm.

Context {Usage World : Type}.
Local Abbreviation M := (M Usage World).
Variable env : Env Usage World.

Definition SYSTEM_PROMPT : string :=
  "You are a Python coding assistant with access to a Python REPL environment. You can write and execute code iteratively to solve problems." +++ nl +++
  nl +++
  "When solving problems:" +++ nl +++
  "1. You can write multiple code blocks" +++ nl +++
  "2. Each code block will be executed in the same session, preserving variables and state" +++ nl +++
  "3. You can inspect results and write additional code based on previous outputs" +++ nl +++
  "4. Use print() statements to inspect variables and state" +++ nl +++
  nl +++
  "Important package installation rules:" +++ nl +++
  "1. Install packages using: await micropip.install('package-name')" +++ nl +++
  "2. Always use try-except for package installations" +++ nl +++
  "3. Only install required packages" +++ nl +++
  "4. Handle package installation failures gracefully" +++ nl +++
  nl +++
  "Format your responses as markdown code blocks with ```python and ```." +++ nl +++
  "You can write multiple blocks to iteratively solve the problem.".

Definition streamResponse := streamResponse_with env (Some MAX_CONTEXT_LENGTH).

Definition handleError (error : Error) : M unit :=
  emit (ConsoleError error) ;;
  emit (OnErrorUpdate true) ;;
  emit (OnResultUpdate ("Error: " +++ message error)).

(** The text pushed by [handleCodeError]. *)
Definition errorMessage (error pythonCode : string) : string :=
  "The code execution resulted in an error: " +++ error +++ nl +++
  "Code:" +++ nl +++ pythonCode.

(** [if (code) await runAndExplainCode(code, ...)] on what the extractor
    returned. *)
Definition run_if_code (run : string -> M unit) (code : nullable string)
  : M unit :=
  match code with
  | value c => if truthy c then run c else ret tt
  | _ => ret tt
  end.

(** The [onFinish] closure, written twice in the source with the same
    body: in [handleCodeError] (where the code is [fixedCode]) and in
    [handleUserInput] (where it is [pythonCode]).  It is [async] and its
    one caller, [streamResponse], does not await it: the call is
    detached. *)
Definition onResponse (runAndExplainCode : string -> M unit)
    (response : string) (usage : Usage) : M unit :=
  detached
    (emit (OnResultUpdate response) ;;
     emit (OnUsageUpdate usage) ;;
     let fixedCode := extractCodeFromMarkdown env response in
     run_if_code runAndExplainCode fixedCode).

(** [runAndExplainCode] is the function this one calls back; it is a
    parameter here and the knot is tied below. *)
Definition handleCodeError (runAndExplainCode : string -> M unit)
    (error pythonCode : string) : M unit :=
  try_catch
    (push (mkMessage user (errorMessage error pythonCode)) ;;
     messages <- get_messages ;;
     streamResponse messages
       (fun s => emit (OnResultUpdate s))
       (onResponse runAndExplainCode)
       handleError)
    handleError.

(** [x != null && x !== '' && x !== 'null'] *)
Definition shown (x : nullable string) : bool :=
  match x with
  | value s => negb (s =? "") && negb (s =? "null")
  | _ => false
  end.

(** The variable [output] after the two conditional appends. *)
Definition composed_output (res : ExecResults) : string :=
  let output := "" in
  let output :=
    if shown (stdout res) then output +++ template (stdout res) +++ nl
    else output in
  let output :=
    if shown (result res) then output +++ template (result res)
    else output in
  output.

Definition successMessage (output : string) : Message :=
  mkMessage assistant
    ("The code executed successfully with the following output: " +++ output).

Fixpoint runAndExplainCode (fuel : nat) (pythonCode : string) : M unit :=
  match fuel with
  | 0 => pending
  | S fuel' =>
      try_catch
        (emit (ExecutePython pythonCode) ;;
         r <- await (executePython env pythonCode) ;;
         if truthy_str (error r) then
           handleError (mkError (template (error r))) ;;
           handleCodeError (runAndExplainCode fuel')
             (template (error r)) pythonCode
         else
           match results r with
           | value res =>
               let output := composed_output res in
               (if truthy output
                then emit (OnCodeOutputUpdate (trim output))
                else ret tt) ;;
               push (successMessage output)
           | _ => ret tt
           end)
        handleError
  end.

Definition handleUserInput (fuel : nat) (input : string) : M unit :=
  new_array [mkMessage system SYSTEM_PROMPT; mkMessage user input] ;;
  try_catch
    (messages <- get_messages ;;
     streamResponse messages
       (fun s => emit (OnResultUpdate s))
       (onResponse (runAndExplainCode fuel))
       handleError)
    handleError.

End Llm.
End Llm.

(** ** The earlier revision of the module

    The same orchestration without the recovery loop and with
    [generateExplanation]. *)

Module Legacy.
Section Legacy.

Context {Usage World : Type}.
Local Abbreviation M := (M Usage World).
Variable env : Env Usage World.

Definition SYSTEM_PROMPT : string :=
  "The user will ask you a tricky question, your job is to write Python code to answer the question." +++ nl +++
  nl +++
  "Really think step by step before writing any code to ensure you're writing the correct code to answer the question correctly." +++ nl +++
  nl +++
  "Respond with a markdown code block starting with ```python and ``` at the end. Make sure the code can be executed without any changes.".

Definition EXPLANATION_PROMPT (result stdout : nullable string) : string :=
  "Awesome! I ran your code that helped me answer my question. It returned "
    +++ template result +++ " and the printed output: "
    +++ template stdout +++ "." +++ nl +++
  "Now respond to my original question using the result and the printed output, ignoring any message before this one.".

Definition streamResponse := streamResponse_with env None.

Definition handleError (error : Error) (prefix : string) : M unit :=
  emit (OnErrorUpdate true) ;;
  let errorMessage :=
    if truthy prefix then prefix +++ ": " +++ message error
    else message error in
  emit (OnResultUpdate errorMessage).

Definition generateExplanation (messages : list Message)
    (aiResponse : string) (executionResults : ExecResults) : M unit :=
  let explanationMessages :=
    messages ++
    [mkMessage assistant aiResponse;
     mkMessage user
       (EXPLANATION_PROMPT (result executionResults)
          (stdout executionResults))] in
  streamResponse explanationMessages
    (fun s => emit (OnExplanationUpdate s))
    (fun explanation explanationUsage =>
       emit (OnExplanationUpdate explanation) ;;
       emit (OnUsageUpdate explanationUsage))
    (fun error => handleError error "Error generating explanation").

Definition runAndExplainCode (pythonCode : string) : M unit :=
  try_catch
    (emit (ExecutePython pythonCode) ;;
     r <- await (executePython env pythonCode) ;;
     if truthy_str (error r) then
       handleError (mkError (template (error r))) ""
     else
       match results r with
       | value res =>
           emit (OnCodeOutputUpdate
                   ("Output:" +++ nl +++ template (stdout res) +++ nl +++
                    "Result: " +++ template (result res))) ;;
           messages <- get_messages ;;
           generateExplanation messages
             ("```python" +++ nl +++ pythonCode +++ nl +++ "```")
             (mkExecResults (stdout res) (result res))
       | _ => ret tt
       end)
    (fun err => handleError err "").

Definition handleUserInput (input : string) : M unit :=
  new_array [mkMessage system SYSTEM_PROMPT; mkMessage user input] ;;
  try_catch
    (messages <- get_messages ;;
     streamResponse messages
       (fun s => emit (OnResultUpdate s))
       (fun aiResponse usage =>
          detached
            (emit (OnResultUpdate aiResponse) ;;
             emit (OnUsageUpdate usage) ;;
             let pythonCode := extractCodeFromMarkdown env aiResponse in
             Llm.run_if_code runAndExplainCode pythonCode))
       (fun error => handleError error ""))
    (fun err => handleError err "").

End Legacy.
End Legacy.

(** ** Test doubles

    A scripted engine and a scripted sandbox, both without state: the
    world is [unit], and every call gets the same answer. *)

Module Stub.

Definition usage1 : nat := 7.

Definition fence (code : string) : string :=
  "```python" +++ nl +++ code +++ nl +++ "```".

(** The text before the first closing fence, if there is one. *)
Fixpoint until_fence (s : string) : option string :=
  match s with
  | EmptyString => None
  | String a r =>
      if String.prefix "```" s then Some EmptyString
      else option_map (String a) (until_fence r)
  end.

(** Modelled from the spec: [extractCodeFromMarkdown] of
    [./markdownParser], which is not part of the sources at hand.  The
    body of the first fenced block tagged [python]; absent when there is
    no such block or when it is not closed.  It only instantiates the
    environment of concrete runs: every theorem below holds for any
    extractor. *)
Fixpoint extract (s : string) : nullable string :=
  match s with
  | EmptyString => null
  | String _ r =>
      if String.prefix ("```python" +++ nl) s
      then match until_fence (substring 10 (String.length s - 10) s) with
           | Some body => value body
           | None => null
           end
      else extract r
  end.

(** An engine that streams [text] in the given pieces, reports usage on a
    last chunk without text, and returns [final] from [getMessage]. *)
Definition stream_of (pieces : list string) : AsyncIter nat :=
  fold_right
    (fun p it => IterYield (mkChunk (Some p) None) it)
    (IterYield (mkChunk None (Some usage1)) IterEnd)
    pieces.

Definition engine_saying {World} (pieces : list string) (final : string)
  : MLCEngine nat World :=
  mkEngine (fun _ w => (Fulfilled (stream_of pieces), w))
           (fun w => (Fulfilled final, w)).

(** The same engine without the usage chunk. *)
Definition engine_without_usage {World} (pieces : list string)
    (final : string) : MLCEngine nat World :=
  mkEngine
    (fun _ w =>
       (Fulfilled
          (fold_right (fun p it => IterYield (mkChunk (Some p) None) it)
             IterEnd pieces), w))
    (fun w => (Fulfilled final, w)).

Definition sandbox_returning {World} (r : PyodideResult)
  : string -> World -> Settled PyodideResult * World :=
  fun _ w => (Fulfilled r, w).

Definition success (out res : string) : PyodideResult :=
  mkPyodideResult (value (mkExecResults (value out) (value res))) null.

Definition failure (reason : string) : PyodideResult :=
  mkPyodideResult null (value reason).

Definition init {World} (w : World) : State nat World :=
  mkState w [] [].

Definition env_with (eng : option (MLCEngine nat unit)) (r : PyodideResult)
  : Env nat unit :=
  mkEnv eng extract (sandbox_returning r).

(** No model has been loaded. *)
Definition not_ready : Env nat unit := env_with None (success "" "").

(** A plain answer in two pieces, then the usage chunk. *)
Definition plain_answer : Env nat unit :=
  env_with
    (Some (engine_saying ["The answer"; " is 4."] "The answer is 4."))
    (success "" "").

(** The same answer, and no usage chunk. *)
Definition no_usage : Env nat unit :=
  env_with
    (Some (engine_without_usage ["The answer"; " is 4."] "The answer is 4."))
    (success "" "").

(** The model answers with code and the sandbox runs it. *)
Definition code_then_success : Env nat unit :=
  env_with
    (Some (engine_saying [fence "print(2+2)"] (fence "print(2+2)")))
    (success ("4" +++ nl) "None").

(** The model always answers with code and the sandbox always fails. *)
Definition always_failing : Env nat unit :=
  env_with
    (Some (engine_saying [fence "1/0"] (fence "1/0")))
    (failure "ZeroDivisionError: division by zero").

(** The model answers with prose and the sandbox fails. *)
Definition failing_no_fix : Env nat unit :=
  env_with
    (Some (engine_saying ["I give up."] "I give up."))
    (failure "ZeroDivisionError: division by zero").

(** The sandbox answers with neither [results] nor [error]. *)
Definition silent_sandbox : Env nat unit :=
  env_with
    (Some (engine_saying [fence "pass"] (fence "pass")))
    (mkPyodideResult undefined undefined).

(** The sandbox prints 5 and returns 10. *)
Definition five_ten : Env nat unit :=
  env_with
    (Some (engine_saying [fence "print(5); 10"] (fence "print(5); 10")))
    (success ("5" +++ nl) "10").

(** An engine whose [getMessage] holds more than it streamed. *)
Definition longer_final : Env nat unit :=
  env_with
    (Some (engine_saying ["The answer"; " is 4"] "The answer is 4."))
    (success "" "").

End Stub.

(** ** Observations on runs *)

Section Observations.

Context {Usage World : Type}.
Local Abbreviation M := (M Usage World).
Local Abbreviation Event := (Event Usage).
Local Abbreviation State := (State Usage World).

(** The events a computation adds to the trace of the state it starts
    from. *)
Definition emitted {A} (m : M A) (st : State) : list Event :=
  skipn (length (trace st)) (trace (snd (m st))).

(** The state with [w] for its world and [evs] added to its trace. *)
Definition after (st : State) (w : World) (evs : list Event) : State :=
  mkState w (conversation st) (trace st ++ evs).

(** The state with [m] pushed on its conversation. *)
Definition pushed (st : State) (m : Message) : State :=
  mkState (world st) (conversation st ++ [m]) (trace st).

(** The computation never ends by throwing. *)
Definition never_throws {A} (m : M A) : Prop :=
  forall st e, fst (m st) <> Thrown e.

(** The chunks an iteration yields before it ends or throws. *)
Fixpoint chunks_of (it : AsyncIter Usage) : list (Chunk Usage) :=
  match it with
  | IterYield c rest => c :: chunks_of rest
  | _ => []
  end.

Fixpoint iter_error (it : AsyncIter Usage) : option Error :=
  match it with
  | IterEnd => None
  | IterThrow e => Some e
  | IterYield _ rest => iter_error rest
  end.

(** The text a chunk contributes. *)
Definition delta_text (c : Chunk Usage) : string :=
  match delta c with Some d => d | None => "" end.

(** The running totals of the deltas, one per chunk, starting from
    [cur]. *)
Fixpoint running (cur : string) (cs : list (Chunk Usage)) : list string :=
  match cs with
  | [] => []
  | c :: rest => (cur +++ delta_text c) :: running (cur +++ delta_text c) rest
  end.

(** The concatenation of all deltas, after [cur]. *)
Definition total (cur : string) (cs : list (Chunk Usage)) : string :=
  fold_left (fun acc c => acc +++ delta_text c) cs cur.

(** The usage summary seen last, if any. *)
Definition last_usage (u : option Usage) (cs : list (Chunk Usage))
  : option Usage :=
  fold_left (fun acc c => match usage c with Some v => Some v | None => acc end)
    cs u.

(** The texts handed to the recording [onUpdate], in order. *)
Fixpoint updates_of (tr : list Event) : list string :=
  match tr with
  | [] => []
  | OnUpdate s :: r => s :: updates_of r
  | _ :: r => updates_of r
  end.

(** [t] is [p] with something, possibly nothing, added at its end. *)
Definition extends (p t : string) : Prop := exists d, t = p +++ d.

(** [t] is [p] with something added at its end. *)
Definition strictly_extends (p t : string) : Prop :=
  exists d, d <> "" /\ t = p +++ d.

(** Every element of the list is related to the one after it. *)
Fixpoint chain {A} (R : A -> A -> Prop) (l : list A) : Prop :=
  match l with
  | a :: (b :: _) as r => R a b /\ chain R r
  | _ => True
  end.

(** [streamResponse] with callbacks that only record their call. *)
Definition record_stream (env : Env Usage World) (max_tokens : option N)
    (msgs : list Message) : M unit :=
  streamResponse_with env max_tokens msgs
    (fun s => emit (OnUpdate s))
    (fun s u => emit (OnFinish s u))
    (fun e => emit (OnError e)).

Definition is_OnFinish (ev : Event) : bool :=
  match ev with OnFinish _ _ => true | _ => false end.

Definition is_OnError (ev : Event) : bool :=
  match ev with OnError _ => true | _ => false end.

(** The call that ends a completion: [onError] or [onFinish]. *)
Definition is_outcome (ev : Event) : bool := is_OnError ev || is_OnFinish ev.

Definition is_OnExplanationUpdate (ev : Event) : bool :=
  match ev with OnExplanationUpdate _ => true | _ => false end.

Definition is_EngineCreate (ev : Event) : bool :=
  match ev with EngineCreate _ => true | _ => false end.

Definition is_ExecutePython (ev : Event) : bool :=
  match ev with ExecutePython _ => true | _ => false end.

(** The conversations sent to the engine, in order. *)
Fixpoint requests_of (tr : list Event) : list (list Message) :=
  match tr with
  | [] => []
  | EngineCreate req :: r => req_messages req :: requests_of r
  | _ :: r => requests_of r
  end.

(** [l1] is an initial segment of [l2]. *)
Definition prefix_of {A} (l1 l2 : list A) : Prop := exists k, l2 = l1 ++ k.

(** The number of sandbox invocations in a trace. *)
Definition executions (tr : list Event) : nat :=
  length (filter is_ExecutePython tr).

(** The two kinds of message [src/lib/llm.ts] pushes during a turn. *)
Definition error_report (m : Message) : Prop :=
  exists e c, m = mkMessage user (Llm.errorMessage e c).

Definition success_summary (m : Message) : Prop :=
  exists out, m = Llm.successMessage out.

(** The message that asks for the explanation. *)
Definition explanation_request (m : Message) : Prop :=
  exists r s, m = mkMessage user (Legacy.EXPLANATION_PROMPT r s).

Definition assistant_response (m : Message) : Prop := role m = assistant.

(** The events by which a failure is signalled. *)
Definition signalled (code reason : string) : list Event :=
  [ExecutePython code; ConsoleError (mkError reason);
   OnErrorUpdate true; OnResultUpdate ("Error: " +++ reason)].

(** The events of a completion that finishes with [fin] and [u]. *)
Definition answered (req : CompletionRequest) (it : AsyncIter Usage)
    (fin : string) (u : Usage) : list Event :=
  EngineCreate req :: map OnResultUpdate (running "" (chunks_of it))
  ++ [EngineGetMessage; OnResultUpdate fin; OnUsageUpdate u].

(** The composition in the words of the specification: the two fields
    one after the other, a field left out when it is empty, null or the
    text "null". *)
Definition concatenation_of_fields (res : ExecResults) : string :=
  (if Llm.shown (stdout res) then template (stdout res) else "")
  +++ (if Llm.shown (result res) then template (result res) else "").

(** From [st] to [st'] the conversation and the trace have only been
    added to, every message added is of one of the two kinds, and the
    conversations sent to the engine in between, taken in order with the
    conversation of [st] before and that of [st'] after, are each an
    initial segment of the next. *)
Definition grows (st st' : State) : Prop :=
  exists ext evs,
    conversation st' = conversation st ++ ext
    /\ trace st' = trace st ++ evs
    /\ Forall (fun m => success_summary m \/ error_report m) ext
    /\ chain prefix_of
         (conversation st :: requests_of evs ++ [conversation st']).

End Observations.

(** ** The shape of a turn

    What the trace of a turn of [src/lib/llm.ts] can look like: a
    completion on a conversation, followed, when the response holds code,
    by a run of that code, followed, when the run fails, by a completion
    on the conversation with the error report, and so on. *)

Section TurnShapes.

Context {Usage World : Type}.
Local Abbreviation Event := (Event Usage).

(** The three calls of [handleError]. *)
Definition error_signal (e : Error) : list Event :=
  [ConsoleError e; OnErrorUpdate true;
   OnResultUpdate ("Error: " +++ message e)].

(** The request [streamResponse] of [llm.ts] sends for [msgs]. *)
Definition llm_request (msgs : list Message) : CompletionRequest :=
  mkRequest true msgs (Some MAX_CONTEXT_LENGTH) true.

(** The error a completion ends with, if it does not finish: a rejected
    [create], a throwing iteration, a rejected [getMessage], or no usage
    summary, in the order the code meets them. *)
Definition completion_error (eng : MLCEngine Usage World)
    (req : CompletionRequest) (w : World) : option Error :=
  match create eng req w with
  | (Rejected e, _) => Some e
  | (Fulfilled it, w1) =>
      match iter_error it with
      | Some e => Some e
      | None =>
          match getMessage eng w1 with
          | (Rejected e, _) => Some e
          | (Fulfilled _, _) =>
              match last_usage None (chunks_of it) with
              | Some _ => None
              | None => Some (mkError "Usage data not available")
              end
          end
      end
  end.

Inductive Phase : Type :=
| Completing (msgs : list Message)
| Running (msgs : list Message) (code : string).

Variable env : Env Usage World.

Inductive shape : Phase -> list Event -> Prop :=
| shape_not_ready msgs :
    shape (Completing msgs)
      (error_signal (mkError "Engine not initialized"))
| shape_stream_error msgs texts e :
    shape (Completing msgs)
      (EngineCreate (llm_request msgs) :: map OnResultUpdate texts
       ++ error_signal e)
| shape_final_error msgs texts e :
    shape (Completing msgs)
      (EngineCreate (llm_request msgs) :: map OnResultUpdate texts
       ++ EngineGetMessage :: error_signal e)
| shape_answer msgs texts fin u :
    truthy_str (extractCodeFromMarkdown env fin) = false ->
    shape (Completing msgs)
      (EngineCreate (llm_request msgs) :: map OnResultUpdate texts
       ++ [EngineGetMessage; OnResultUpdate fin; OnUsageUpdate u])
| shape_answer_code msgs texts fin u code tail :
    extractCodeFromMarkdown env fin = value code ->
    truthy code = true ->
    shape (Running msgs code) tail ->
    shape (Completing msgs)
      (EngineCreate (llm_request msgs) :: map OnResultUpdate texts
       ++ [EngineGetMessage; OnResultUpdate fin; OnUsageUpdate u] ++ tail)
| shape_pending msgs code :
    shape (Running msgs code) []
| shape_rejected msgs code e :
    shape (Running msgs code) (ExecutePython code :: error_signal e)
| shape_silent msgs code :
    shape (Running msgs code) [ExecutePython code]
| shape_success msgs code output :
    shape (Running msgs code)
      (ExecutePython code ::
       if truthy output then [OnCodeOutputUpdate (trim output)] else [])
| shape_failed msgs code reason tail :
    truthy reason = true ->
    shape (Completing
             (msgs ++ [mkMessage user (Llm.errorMessage reason code)]))
      tail ->
    shape (Running msgs code)
      (ExecutePython code :: error_signal (mkError reason) ++ tail).

(** The conversation a phase starts from. *)
Definition base (p : Phase) : list Message :=
  match p with
  | Completing msgs => msgs
  | Running msgs _ => msgs
  end.

(** The events a turn of [llm.ts] never produces: a cleared error flag,
    an explanation, and the recording callbacks. *)
Definition turn_event (ev : Event) : Prop :=
  match ev with
  | OnErrorUpdate b => b = true
  | OnExplanationUpdate _ => False
  | OnUpdate _ => False
  | OnFinish _ _ => False
  | OnError _ => False
  | EngineCreate req =>
      req_stream req = true
      /\ req_include_usage req = true
      /\ req_max_tokens req = Some MAX_CONTEXT_LENGTH
  | _ => True
  end.

(** No sandbox invocation is among the events. *)
Definition no_execution (l : list Event) : Prop :=
  Forall (fun ev => is_ExecutePython ev = false) l.

(** Every sandbox invocation in [evs] comes right after the delivery of
    a response, with its usage, from which the extractor returned the
    code invoked; [ctx] is what came before [evs]. *)
Definition caused_in (ctx evs : list Event) : Prop :=
  forall pre code post,
    evs = pre ++ ExecutePython code :: post ->
    exists pre' fin u,
      ctx ++ pre = pre' ++ [OnResultUpdate fin; OnUsageUpdate u]
      /\ extractCodeFromMarkdown env fin = value code
      /\ truthy code = true.

End TurnShapes.

(** ** More test doubles *)

Module Scene.

(** The sandbox's promise rejects. *)
Definition sandbox_rejecting {World} (e : Error)
  : string -> World -> Settled PyodideResult * World :=
  fun _ w => (Rejected e, w).

Definition crashing_sandbox : Env nat unit :=
  mkEnv (Some (Stub.engine_saying [Stub.fence "1/0"] (Stub.fence "1/0")))
    Stub.extract
    (sandbox_rejecting (mkError "pyodide is not loaded")).

(** An engine whose stream throws after its first chunk. *)
Definition breaking_engine {World} : MLCEngine nat World :=
  mkEngine
    (fun _ w =>
       (Fulfilled
          (IterYield (mkChunk (Some "The ans") None)
             (IterThrow (mkError "device lost"))), w))
    (fun w => (Fulfilled "The ans", w)).

Definition broken_stream : Env nat unit :=
  Stub.env_with (Some breaking_engine) (Stub.success "" "").

(** An engine whose [create] rejects. *)
Definition refusing_engine {World} : MLCEngine nat World :=
  mkEngine (fun _ w => (Rejected (mkError "out of memory"), w))
           (fun w => (Fulfilled "", w)).

Definition refused : Env nat unit :=
  Stub.env_with (Some refusing_engine) (Stub.success "" "").

(** An engine that streams with usage and whose [getMessage] rejects. *)
Definition forgetful_engine {World} : MLCEngine nat World :=
  mkEngine (fun _ w => (Fulfilled (Stub.stream_of ["4"]), w))
           (fun w => (Rejected (mkError "no message"), w)).

Definition forgotten : Env nat unit :=
  Stub.env_with (Some forgetful_engine) (Stub.success "" "").

(** A world that counts the sandbox invocations: the first one fails,
    the later ones succeed, and the model answers [1/0] before the first
    invocation and [1//1] after it. *)
Definition answer_at (w : nat) : string :=
  Stub.fence (if Nat.eqb w 0 then "1/0" else "1//1").

Definition fixing_engine : MLCEngine nat nat :=
  mkEngine (fun _ w => (Fulfilled (Stub.stream_of [answer_at w]), w))
           (fun w => (Fulfilled (answer_at w), w)).

Definition flaky_sandbox : string -> nat -> Settled PyodideResult * nat :=
  fun _ w =>
    (Fulfilled
       (if Nat.eqb w 0
        then Stub.failure "ZeroDivisionError: division by zero"
        else Stub.success "" "1"),
     S w).

Definition fixed_on_retry : Env nat nat :=
  mkEnv (Some fixing_engine) Stub.extract flaky_sandbox.

(** The sandbox succeeds and the engine's stream breaks. *)
Definition explanation_breaks : Env nat unit :=
  Stub.env_with (Some breaking_engine) (Stub.success "4" "None").

End Scene.

(** ** Observations on the earlier revision *)

Section LegacyShapes.

Context {Usage World : Type}.
Local Abbreviation M := (M Usage World).
Local Abbreviation State := (State Usage World).
Local Abbreviation Event := (Event Usage).

(** The request [streamResponse] of the earlier revision sends. *)
Definition legacy_request (msgs : list Message) : CompletionRequest :=
  mkRequest true msgs None true.

(** The two calls of the earlier [handleError]. *)
Definition legacy_error_signal (prefix : string) (e : Error) : list Event :=
  [OnErrorUpdate true;
   OnResultUpdate
     (if truthy prefix then prefix +++ ": " +++ message e else message e)].

(** The computation returns, in the state it started from but for the
    world and for [evs] added to the trace, with at most [a] sandbox
    invocations and [b] requests among them. *)
Definition settles (m : M unit) (st : State) (a b : nat) : Prop :=
  exists w evs,
    m st = (Normal tt, after st w evs)
    /\ executions evs <= a
    /\ length (requests_of evs) <= b.

End LegacyShapes.

(** ** Loading the model: the rest of [src/lib/llm.ts]

    [initializeWebLLMEngine], [setProgressCallback] and
    [handleEngineInitProgress] work on the two module-level variables,
    [engine] and [progressCallback].  A number of the source is kept as
    the decimal literal it is written with; no arithmetic is done on
    it. *)

Module Loading.

(** [mantissa / 10 ^ decimals]: [1.1] is [dec 11 1], [1] is [dec 1 0]. *)
Record number : Type := dec { mantissa : N; decimals : N }.

(** The configuration handed to [engine.reload]. *)
Record ChatConfig : Type := mkConfig {
  temperature : number;
  top_p : number;
  max_tokens : N;
  repetition_penalty : number
}.

(** What the engine reports while it loads; only [text] is read. *)
Record InitProgressReport : Type := mkReport { text : string }.

Section Loading.

Context {Usage World : Type}.
(** What a progress callback is, for whoever registers one. *)
Context {Sink : Type}.

(** An engine as [new webllm.MLCEngine()] returns it: the chat interface
    used by [streamResponse], and [reload], which makes its progress
    reports, in order, and then settles. *)
Record Loadable : Type := mkLoadable {
  chat : MLCEngine Usage World;
  reload : string -> ChatConfig -> World ->
           (list InitProgressReport * Settled unit) * World
}.

(** The module-level variables. *)
Record Globals : Type := mkGlobals {
  engine_var : option Loadable;           (* let engine *)
  progressCallback : option Sink          (* let progressCallback *)
}.

Inductive LoadEvent : Type :=
| ProgressCalled : Sink -> string -> LoadEvent   (* progressCallback(text) *)
| CompletionCalled : LoadEvent                   (* onCompletion() *)
| ConsoleErrorLoading : Error -> LoadEvent.      (* console.error(...) *)

Record LState : Type := mkLState {
  l_world : World;
  globals : Globals;
  l_trace : list LoadEvent
}.

Definition setProgressCallback (callback : Sink) (st : LState) : LState :=
  mkLState (l_world st)
    (mkGlobals (engine_var (globals st)) (Some callback))
    (l_trace st).

Definition handleEngineInitProgress (report : InitProgressReport)
    (st : LState) : LState :=
  match progressCallback (globals st) with
  | Some callback =>
      mkLState (l_world st) (globals st)
        (l_trace st ++ [ProgressCalled callback (text report)])
  | None => st
  end.

(** [fresh] is what [new webllm.MLCEngine()] returns.  The engine calls
    the callback it was given, [handleEngineInitProgress], for each of
    its reports while [reload] is awaited.  The constructor and the
    callbacks ([progressCallback], [onCompletion]) are taken to return. *)
Definition initializeWebLLMEngine (fresh : Loadable)
    (selectedModel : string) (temperature topP : number) (st : LState)
  : Completion unit * LState :=
  let st := mkLState (l_world st)
              (mkGlobals (Some fresh) (progressCallback (globals st)))
              (l_trace st) in
  let config := mkConfig temperature topP MAX_CONTEXT_LENGTH (dec 11 1) in
  match reload fresh selectedModel config (l_world st) with
  | ((reports, settled), w) =>
      let st := fold_left (fun s r => handleEngineInitProgress r s) reports
                  (mkLState w (globals st) (l_trace st)) in
      match settled with
      | Fulfilled _ =>
          (Normal tt,
           mkLState (l_world st) (globals st)
             (l_trace st ++ [CompletionCalled]))
      | Rejected error =>
          (Thrown error,
           mkLState (l_world st) (globals st)
             (l_trace st ++ [ConsoleErrorLoading error]))
      end
  end.


End Loading.

Arguments Loadable : clear implicits.
Arguments Globals : clear implicits.
Arguments LoadEvent : clear implicits.
Arguments LState : clear implicits.

(** *** The hook [useModelLoading] *)

Section Hook.

Context {Usage World : Type}.

(** The three [useState] cells. *)
Record Hook : Type := mkHook {
  isModelLoaded : bool;
  isModelLoading : bool;
  loadingProgress : string
}.

Definition initial : Hook := mkHook false false "".

(** A progress callback, for the hook, is a setter of its state. *)
Definition Setter : Type := string -> Hook -> Hook.

Definition setLoadingProgress : Setter :=
  fun s h => mkHook (isModelLoaded h) (isModelLoading h) s.

(** What a call recorded during the load does to the hook's state;
    [CompletionCalled] is the [onCompletion] closure of
    [handleLoadModel]. *)
Definition react (h : Hook) (ev : LoadEvent Setter) : Hook :=
  match ev with
  | ProgressCalled callback s => callback s h
  | CompletionCalled =>
      setLoadingProgress "Model loaded successfully"
        (mkHook true (isModelLoading h) (loadingProgress h))
  | ConsoleErrorLoading _ => h
  end.

(** [useEffect(() => { setProgressCallback(setLoadingProgress) }, [])] *)
Definition mount (st : LState Usage World Setter)
  : LState Usage World Setter :=
  setProgressCallback setLoadingProgress st.

Definition MODEL : string := "Qwen2.5-Coder-1.5B-Instruct-q4f16_1-MLC".

Definition handleLoadModel (fresh : Loadable Usage World) (h : Hook)
    (st : LState Usage World Setter)
  : Hook * LState Usage World Setter :=
  let h := mkHook (isModelLoaded h) true (loadingProgress h) in
  let '(c, st') :=
    initializeWebLLMEngine fresh MODEL (dec 7 1) (dec 1 0) st in
  let h := fold_left react (skipn (length (l_trace st)) (l_trace st')) h in
  let h :=
    match c with
    | Thrown err => setLoadingProgress (message err) h
    | _ => h
    end in
  (mkHook (isModelLoaded h) false (loadingProgress h), st').

End Hook.

End Loading.

(** ** Test doubles for the load *)

Module LoadScene.

(** What an engine that has loaded no model does with a chat request. *)
Definition unloaded_chat : MLCEngine nat unit :=
  mkEngine
    (fun _ w => (Rejected (mkError "Model not loaded before calling chatCompletion()"), w))
    (fun w => (Fulfilled "", w)).

(** An engine whose [reload] reports once and then rejects. *)
Definition failing_load : Loading.Loadable nat unit :=
  Loading.mkLoadable unloaded_chat
    (fun _ _ w =>
       (([Loading.mkReport "Fetching param cache[0/24]"],
         Rejected (mkError "Failed to fetch")), w)).

(** An engine whose [reload] reports twice and then is ready. *)
Definition good_load : Loading.Loadable nat unit :=
  Loading.mkLoadable
    (Stub.engine_saying ["The answer"; " is 4."] "The answer is 4.")
    (fun _ _ w =>
       (([Loading.mkReport "Loading model from cache[1/24]";
          Loading.mkReport "Finish loading on WebGPU"],
         Fulfilled tt), w)).

(** Before anything was loaded or registered. *)
Definition before_load : Loading.LState nat unit Loading.Setter :=
  Loading.mkLState tt (Loading.mkGlobals None None) [].

End LoadScene.

(** The calls the progress reports of a load lead to. *)
Definition forwarded {Sink : Type} (callback : option Sink)
    (reports : list Loading.InitProgressReport)
  : list (Loading.LoadEvent Sink) :=
  match callback with
  | Some cb => map (fun r => Loading.ProgressCalled cb (Loading.text r)) reports
  | None => []
  end.

(** ** Properties of the Completion Streamer *)

Lemma append_empty_r (s : string) : s +++ "" = s.
Proof. induction s as [|a s IH]; simpl; [reflexivity | now rewrite IH]. Qed.

Lemma append_assoc (a b c : string) : (a +++ b) +++ c = a +++ b +++ c.
Proof. induction a as [|x a IH]; simpl; [reflexivity | now rewrite IH]. Qed.

Lemma append_eq_self (p d : string) : p +++ d = p -> d = "".
Proof.
  induction p as [|x p IH]; simpl; intros H; [exact H |].
  injection H as H. now apply IH.
Qed.

Section StreamerFacts.

Context {Usage World : Type}.
Local Abbreviation M := (M Usage World).
Local Abbreviation State := (State Usage World).
Variable env : Env Usage World.

Lemma after_nil (st : State) : after st (world st) [] = st.
Proof. destruct st; unfold after; simpl. now rewrite app_nil_r. Qed.

Lemma after_after (st : State) w1 w2 e1 e2 :
  after (after st w1 e1) w2 e2 = after st w2 (e1 ++ e2).
Proof. unfold after; simpl. now rewrite app_assoc. Qed.

Lemma emit_after (ev : Event Usage) (st : State) :
  emit ev st = (Normal tt, after st (world st) [ev]).
Proof. reflexivity. Qed.

(** The step of the loop adds the chunk's text to the total. *)
Lemma accumulate_step (cur : string) (c : Chunk Usage) :
  match delta c with
  | Some d => if truthy d then cur +++ d else cur
  | None => cur
  end = cur +++ delta_text c.
Proof.
  unfold delta_text. destruct (delta c) as [d|].
  - destruct d; simpl; [now rewrite append_empty_r | reflexivity].
  - now rewrite append_empty_r.
Qed.

(** The loop, run with an [onUpdate] that records: it hands over the
    running totals, and returns the total and the usage seen last unless
    the iteration throws. *)
Lemma for_await_emit (f : string -> Event Usage) :
  forall (it : AsyncIter Usage) (cur : string) (u : option Usage) (st : State),
    for_await it (fun s => emit (f s)) cur u st =
    (match iter_error it with
     | Some e => Thrown e
     | None => Normal (total cur (chunks_of it), last_usage u (chunks_of it))
     end,
     after st (world st) (map f (running cur (chunks_of it)))).
Proof.
  induction it as [|e|c rest IH]; intros cur u st; simpl.
  - unfold ret. now rewrite after_nil.
  - unfold throw. now rewrite after_nil.
  - rewrite accumulate_step. unfold bind at 1. rewrite emit_after.
    rewrite IH. rewrite after_after. reflexivity.
Qed.

(** One call of [streamResponse] with a recording [onUpdate], followed
    through the engine's answers. *)
Lemma streamResponse_run (max_tokens : option N) (msgs : list Message)
    (f : string -> Event Usage) (onFinish : string -> Usage -> M unit)
    (onError : Error -> M unit) (st : State) (eng : MLCEngine Usage World) :
  engine env = Some eng ->
  let req := mkRequest true msgs max_tokens true in
  streamResponse_with env max_tokens msgs (fun s => emit (f s))
    onFinish onError st =
  match create eng req (world st) with
  | (Rejected e, w) => onError e (after st w [EngineCreate req])
  | (Fulfilled it, w) =>
      let cs := chunks_of it in
      let st2 := after st w (EngineCreate req :: map f (running "" cs)) in
      match iter_error it with
      | Some e => onError e st2
      | None =>
          match getMessage eng w with
          | (Rejected e, w') => onError e (after st2 w' [EngineGetMessage])
          | (Fulfilled fin, w') =>
              match last_usage None cs with
              | Some u =>
                  try_catch (onFinish fin u) onError
                    (after st2 w' [EngineGetMessage])
              | None =>
                  onError (mkError "Usage data not available")
                    (after st2 w' [EngineGetMessage])
              end
          end
      end
  end.
Proof.
  intros Heng req. unfold streamResponse_with. rewrite Heng.
  fold req. unfold try_catch at 1. unfold bind at 1. rewrite emit_after.
  unfold bind at 1. unfold await at 1. simpl world.
  destruct (create eng req (world st)) as [[it|e] w]; [|reflexivity].
  unfold bind at 1. rewrite for_await_emit. simpl.
  destruct (iter_error it) as [e|].
  - unfold after; simpl. now rewrite <- app_assoc.
  - unfold bind at 1. rewrite emit_after. unfold bind at 1.
    unfold await at 1. simpl world.
    destruct (getMessage eng w) as [[fin|e] w'].
    + destruct (last_usage None (chunks_of it)) as [u|].
      * unfold try_catch, after; simpl. now rewrite <- !app_assoc.
      * unfold throw, after; simpl. now rewrite <- !app_assoc.
    + unfold after; simpl. now rewrite <- !app_assoc.
Qed.

End StreamerFacts.

Section StreamerProperties.

Context {Usage World : Type}.
Local Abbreviation M := (M Usage World).
Local Abbreviation State := (State Usage World).
Local Abbreviation Event := (Event Usage).

Lemma emitted_after {A} (m : M A) (st : State) (w : World)
    (evs : list Event) :
  snd (m st) = after st w evs -> emitted m st = evs.
Proof.
  intros H. unfold emitted. rewrite H. unfold after; simpl.
  rewrite skipn_app, skipn_all, Nat.sub_diag. reflexivity.
Qed.

(** What the recording callbacks see of one call, by the engine's
    answers. *)
Lemma record_stream_run (env : Env Usage World) (max_tokens : option N)
    (msgs : list Message) (st : State) (eng : MLCEngine Usage World) :
  engine env = Some eng ->
  let req := mkRequest true msgs max_tokens true in
  record_stream env max_tokens msgs st =
  match create eng req (world st) with
  | (Rejected e, w) => (Normal tt, after st w [EngineCreate req; OnError e])
  | (Fulfilled it, w) =>
      let cs := chunks_of it in
      let pre := EngineCreate req :: map OnUpdate (running "" cs) in
      match iter_error it with
      | Some e => (Normal tt, after st w (pre ++ [OnError e]))
      | None =>
          match getMessage eng w with
          | (Rejected e, w') =>
              (Normal tt, after st w' (pre ++ [EngineGetMessage; OnError e]))
          | (Fulfilled fin, w') =>
              (Normal tt,
               after st w'
                 (pre ++
                  [EngineGetMessage;
                   match last_usage None cs with
                   | Some u => OnFinish fin u
                   | None => OnError (mkError "Usage data not available")
                   end]))
          end
      end
  end.
Proof.
  intros Heng req. unfold record_stream.
  rewrite (streamResponse_run env max_tokens msgs OnUpdate _ _ st Heng).
  fold req. destruct (create eng req (world st)) as [[it|e] w].
  - cbv zeta. destruct (iter_error it) as [e|].
    + rewrite emit_after, after_after. reflexivity.
    + destruct (getMessage eng w) as [[fin|e] w'].
      * destruct (last_usage None (chunks_of it)) as [u|];
          [unfold try_catch|]; rewrite emit_after; unfold after; simpl;
          rewrite <- ?app_assoc; reflexivity.
      * rewrite emit_after; unfold after; simpl.
        rewrite <- ?app_assoc; reflexivity.
  - rewrite emit_after, after_after. reflexivity.
Qed.

Lemma updates_of_app (a b : list Event) :
  updates_of (a ++ b) = updates_of a ++ updates_of b.
Proof.
  induction a as [|ev a IH]; simpl; [reflexivity |].
  destruct ev; simpl; rewrite IH; reflexivity.
Qed.

Lemma updates_of_map (l : list string) :
  updates_of (map (@OnUpdate Usage) l) = l.
Proof. induction l as [|s l IH]; simpl; [reflexivity | now rewrite IH]. Qed.

Lemma last_usage_none (cs : list (Chunk Usage)) :
  (forall c, In c cs -> usage c = None) -> last_usage None cs = None.
Proof.
  unfold last_usage. induction cs as [|c cs IH]; intros H; simpl.
  - reflexivity.
  - rewrite (H c (or_introl eq_refl)). apply IH.
    intros c' Hc'. apply H. now right.
Qed.

Lemma last_usage_some (cs : list (Chunk Usage)) :
  forall (u0 : option Usage) (u : Usage),
    last_usage u0 cs = Some u ->
    u0 = Some u \/ exists c, In c cs /\ usage c = Some u.
Proof.
  unfold last_usage. induction cs as [|c cs IH]; intros u0 u H; simpl in H.
  - now left.
  - apply IH in H. destruct H as [H | [c' [Hin Hc']]].
    + destruct (usage c) as [v|] eqn:Hu.
      * right. exists c. split; [now left | congruence].
      * now left.
    + right. exists c'. split; [now right | exact Hc'].
Qed.

Lemma chain_running (cur : string) (cs : list (Chunk Usage)) :
  chain extends (cur :: running cur cs).
Proof.
  revert cur. induction cs as [|c cs IH]; intros cur; simpl; [exact I |].
  split; [now exists (delta_text c) | apply IH].
Qed.

Lemma chain_running_strict (cur : string) (cs : list (Chunk Usage)) :
  (forall c, In c cs -> delta_text c <> "") ->
  chain strictly_extends (cur :: running cur cs).
Proof.
  revert cur. induction cs as [|c cs IH]; intros cur H; simpl; [exact I |].
  split.
  - exists (delta_text c). split; [apply H; now left | reflexivity].
  - apply IH. intros c' Hc'. apply H. now right.
Qed.

(** Along the running totals, the text for a chunk is the text before it
    with that chunk's text at its end. *)
Lemma running_step (cs : list (Chunk Usage)) :
  forall (cur : string) (i : nat) (c : Chunk Usage) (p t : string),
    nth_error cs i = Some c ->
    nth_error (cur :: running cur cs) i = Some p ->
    nth_error (running cur cs) i = Some t ->
    t = p +++ delta_text c.
Proof.
  induction cs as [|c0 cs IH]; intros cur i c p t Hc Hp Ht.
  - destruct i; discriminate Hc.
  - destruct i as [|i]; simpl in *.
    + congruence.
    + eapply IH; eassumption.
Qed.

Lemma last_cons {A} (a d : A) (l : list A) : last (a :: l) d = last l a.
Proof.
  revert a d. induction l as [|b l IH]; intros a d; [reflexivity |].
  change (last (b :: l) d = last (b :: l) a). now rewrite !IH.
Qed.

Lemma last_running (cur : string) (cs : list (Chunk Usage)) :
  last (running cur cs) cur = total cur cs.
Proof.
  revert cur. induction cs as [|c cs IH]; intros cur; [reflexivity |].
  change (last ((cur +++ delta_text c) :: running (cur +++ delta_text c) cs) cur
          = total (cur +++ delta_text c) cs).
  rewrite last_cons. apply IH.
Qed.

Lemma no_outcome_among_updates (l : list string) :
  filter is_outcome (map (@OnUpdate Usage) l) = [].
Proof. induction l as [|x l IH]; [reflexivity | exact IH]. Qed.

Lemma no_finish_among_updates (l : list string) :
  filter is_OnFinish (map (@OnUpdate Usage) l) = [].
Proof. induction l as [|x l IH]; [reflexivity | exact IH]. Qed.

End StreamerProperties.

(** *** The engine is not ready *)

Lemma progress_keeps_globals {Usage World Sink : Type}
    (reports : list Loading.InitProgressReport) :
  forall st : Loading.LState Usage World Sink,
    Loading.globals
      (fold_left (fun s r => Loading.handleEngineInitProgress r s) reports st)
    = Loading.globals st.
Proof.
  induction reports as [|r reports IH]; intros st; [reflexivity |].
  simpl. rewrite IH. unfold Loading.handleEngineInitProgress.
  destruct (Loading.progressCallback (Loading.globals st)); reflexivity.
Qed.

(** From the first call of [initializeWebLLMEngine] on, whatever becomes
    of the load, the variable [engine] holds the engine constructed. *)
Lemma initialize_assigns_engine {Usage World Sink : Type}
    (fresh : Loading.Loadable Usage World) (model : string)
    (temperature topP : Loading.number)
    (st : Loading.LState Usage World Sink) :
  Loading.globals
    (snd (Loading.initializeWebLLMEngine fresh model temperature topP st))
  = Loading.mkGlobals (Some fresh)
      (Loading.progressCallback (Loading.globals st)).
Proof.
  unfold Loading.initializeWebLLMEngine. cbv zeta. cbn [Loading.l_world].
  destruct (Loading.reload fresh model _ (Loading.l_world st))
    as [[reports settled] w].
  destruct settled; cbn [snd Loading.globals];
    now rewrite progress_keeps_globals.
Qed.





(** *** The texts handed to [onUpdate] *)

(** C5, as stated, fails: for the answer streamed in two pieces and
    followed by the usage chunk, the third text handed to [onUpdate] is
    the second one again, not a strict extension of it. *)
Lemma updates_not_strictly_growing :
  updates_of (emitted (record_stream Stub.plain_answer None []) (Stub.init tt))
    = ["The answer"; "The answer is 4."; "The answer is 4."]
  /\ ~ chain strictly_extends
         (updates_of
            (emitted (record_stream Stub.plain_answer None []) (Stub.init tt))).
Proof.
  split; [reflexivity |].
  change (~ chain strictly_extends
            ["The answer"; "The answer is 4."; "The answer is 4."]).
  intros [_ [[d [Hd Heq]] _]].
  apply Hd. symmetry in Heq. now apply append_eq_self in Heq.
Qed.

(** C5, amended.  When the engine answers with a stream, the texts handed
    to [onUpdate] are the running totals of the deltas, one per chunk:
    each is the previous one with the chunk's text added at its end, so
    it is the previous one again exactly for a chunk without text and
    strictly longer otherwise, and every text extends the one before it;
    when every chunk carries text, strictly. *)
Theorem updates_are_running_totals :
  forall (Usage World : Type) (env : Env Usage World)
         (eng : MLCEngine Usage World) (max_tokens : option N)
         (msgs : list Message) (st : State Usage World)
         (it : AsyncIter Usage) (w : World),
    engine env = Some eng ->
    create eng (mkRequest true msgs max_tokens true) (world st)
      = (Fulfilled it, w) ->
    let ups := updates_of (emitted (record_stream env max_tokens msgs) st) in
    ups = running "" (chunks_of it)
    /\ chain extends ("" :: ups)
    /\ (forall i c p t,
          nth_error (chunks_of it) i = Some c ->
          nth_error ("" :: ups) i = Some p ->
          nth_error ups i = Some t ->
          t = p +++ delta_text c
          /\ (t = p <-> delta_text c = "")
          /\ (delta_text c <> "" -> strictly_extends p t))
    /\ ((forall c, In c (chunks_of it) -> delta_text c <> "") ->
        chain strictly_extends ("" :: ups)).
Proof.
  intros Usage World env eng max_tokens msgs st it w Heng Hcreate ups.
  assert (Hups : ups = running "" (chunks_of it)).
  { unfold ups.
    pose proof (record_stream_run env max_tokens msgs st Heng) as Hrun.
    cbv zeta in Hrun. rewrite Hcreate in Hrun.
    destruct (iter_error it) as [e|].
    - rewrite (emitted_after _ (f_equal snd Hrun)).
      simpl. rewrite updates_of_app, updates_of_map. simpl.
      now rewrite app_nil_r.
    - destruct (getMessage eng w) as [[fin|e] w'];
        rewrite (emitted_after _ (f_equal snd Hrun));
        simpl; rewrite updates_of_app, updates_of_map; simpl;
        [destruct (last_usage None (chunks_of it)) |];
        simpl; now rewrite app_nil_r. }
  rewrite Hups. split; [reflexivity |]. split; [|split].
  - apply chain_running.
  - intros i c p t Hc Hp Ht.
    pose proof (running_step _ _ _ Hc Hp Ht) as Hstep.
    split; [exact Hstep |]. split.
    + split; intros H.
      * rewrite H in Hstep. symmetry in Hstep.
        now apply append_eq_self in Hstep.
      * rewrite Hstep, H. apply append_empty_r.
    + intros Hne. now exists (delta_text c).
  - apply chain_running_strict.
Qed.

Lemma updates_are_running_totals_witness :
  updates_of (emitted (record_stream Stub.plain_answer None []) (Stub.init tt))
    = running "" (chunks_of (Stub.stream_of ["The answer"; " is 4."])).
Proof.
  exact (proj1
           (updates_are_running_totals Stub.plain_answer None []
              (Stub.init tt) eq_refl eq_refl)).
Defined.

(** *** The usage summary *)

(** C4.  When the engine's stream ends without any chunk carrying a usage
    summary, the Completion Streamer calls [onError] with the error "Usage
    data not available", as its last action, and never [onFinish]; when
    such a stream or [engine.getMessage()] throws instead, the one call
    of [onError] carries what was thrown, and [onFinish] is still not
    called; conversely, in any call whatsoever, [onFinish] is called only
    with a usage summary that some chunk of the stream carried. *)
Theorem usage_required :
  forall (Usage World : Type) (env : Env Usage World)
         (max_tokens : option N) (msgs : list Message)
         (st : State Usage World),
    let req := mkRequest true msgs max_tokens true in
    let evs := emitted (record_stream env max_tokens msgs) st in
    (forall eng it w fin w',
        engine env = Some eng ->
        create eng req (world st) = (Fulfilled it, w) ->
        iter_error it = None ->
        getMessage eng w = (Fulfilled fin, w') ->
        (forall c, In c (chunks_of it) -> usage c = None) ->
        evs = EngineCreate req :: map OnUpdate (running "" (chunks_of it))
              ++ [EngineGetMessage;
                  OnError (mkError "Usage data not available")]
        /\ filter is_OnFinish evs = [])
    /\ (forall eng it w,
          engine env = Some eng ->
          create eng req (world st) = (Fulfilled it, w) ->
          (forall c, In c (chunks_of it) -> usage c = None) ->
          exists e, filter is_outcome evs = [OnError e])
    /\ (forall s u,
          In (OnFinish s u) evs ->
          exists eng it w c,
            engine env = Some eng
            /\ create eng req (world st) = (Fulfilled it, w)
            /\ In c (chunks_of it) /\ usage c = Some u).
Proof.
  intros Usage World env max_tokens msgs st req evs. split; [|split].
  - intros eng it w fin w' Heng Hcreate Hend Hget Hnone.
    pose proof (record_stream_run env max_tokens msgs st Heng) as Hrun.
    cbv zeta in Hrun. fold req in Hrun.
    rewrite Hcreate, Hend, Hget, (last_usage_none _ Hnone) in Hrun.
    unfold evs. rewrite (emitted_after _ (f_equal snd Hrun)).
    split; [reflexivity |].
    simpl. rewrite filter_app, no_finish_among_updates. reflexivity.
  - intros eng it w Heng Hcreate Hnone.
    pose proof (record_stream_run env max_tokens msgs st Heng) as Hrun.
    cbv zeta in Hrun. fold req in Hrun.
    rewrite Hcreate, (last_usage_none _ Hnone) in Hrun.
    unfold evs.
    destruct (iter_error it) as [e|].
    + exists e. rewrite (emitted_after _ (f_equal snd Hrun)).
      simpl. rewrite filter_app, no_outcome_among_updates. reflexivity.
    + destruct (getMessage eng w) as [[fin|e] w'];
        [exists (mkError "Usage data not available") | exists e];
        rewrite (emitted_after _ (f_equal snd Hrun));
        simpl; rewrite filter_app, no_outcome_among_updates; reflexivity.
  - intros s u Hin. unfold evs in Hin.
    destruct (engine env) as [eng|] eqn:Heng.
    + pose proof (record_stream_run env max_tokens msgs st Heng) as Hrun.
      cbv zeta in Hrun. fold req in Hrun.
      destruct (create eng req (world st)) as [[it|e] w] eqn:Hcreate.
      * assert (Hmap : forall l, ~ In (OnFinish s u)
                                     (map (@OnUpdate Usage) l)).
        { intros l Hl. apply in_map_iff in Hl.
          destruct Hl as [x [Hx _]]. discriminate Hx. }
        destruct (iter_error it) as [e|].
        { rewrite (emitted_after _ (f_equal snd Hrun)) in Hin.
          simpl in Hin. destruct Hin as [Hin|Hin]; [discriminate |].
          apply in_app_or in Hin. destruct Hin as [Hin|Hin];
            [now apply Hmap in Hin |].
          simpl in Hin. destruct Hin as [Hin|[]]. discriminate. }
        destruct (getMessage eng w) as [[fin|e] w'].
        { rewrite (emitted_after _ (f_equal snd Hrun)) in Hin.
          simpl in Hin. destruct Hin as [Hin|Hin]; [discriminate |].
          apply in_app_or in Hin. destruct Hin as [Hin|Hin];
            [now apply Hmap in Hin |].
          simpl in Hin. destruct Hin as [Hin|[Hin|[]]]; [discriminate |].
          destruct (last_usage None (chunks_of it)) as [u'|] eqn:Hu;
            [|discriminate].
          injection Hin as _ Hu'. subst u'.
          apply last_usage_some in Hu.
          destruct Hu as [Hu|[c [Hc Huc]]]; [discriminate |].
          exists eng, it, w, c. repeat split; assumption. }
        { rewrite (emitted_after _ (f_equal snd Hrun)) in Hin.
          simpl in Hin. destruct Hin as [Hin|Hin]; [discriminate |].
          apply in_app_or in Hin. destruct Hin as [Hin|Hin];
            [now apply Hmap in Hin |].
          simpl in Hin. destruct Hin as [Hin|[Hin|[]]]; discriminate. }
      * rewrite (emitted_after _ (f_equal snd Hrun)) in Hin.
        simpl in Hin. destruct Hin as [Hin|[Hin|[]]]; discriminate.
    + exfalso. unfold emitted, record_stream, streamResponse_with in Hin.
      rewrite Heng in Hin. simpl in Hin.
      rewrite skipn_app, skipn_all, Nat.sub_diag in Hin. simpl in Hin.
      destruct Hin as [Hin|[]]. discriminate.
Qed.

Lemma usage_required_witness :
  emitted (record_stream Stub.no_usage None []) (Stub.init tt)
    = [EngineCreate (mkRequest true [] None true);
       OnUpdate "The answer"; OnUpdate "The answer is 4.";
       EngineGetMessage; OnError (mkError "Usage data not available")].
Proof.
  refine (proj1
            (proj1 (usage_required Stub.no_usage None [] (Stub.init tt))
               (Stub.engine_without_usage ["The answer"; " is 4."]
                  "The answer is 4.")
               _ tt "The answer is 4." tt
               eq_refl eq_refl eq_refl eq_refl _)).
  simpl. intros c [Hc|[Hc|[]]]; subst c; reflexivity.
Defined.

(** *** The text handed to [onFinish] *)

(** C6, as stated, fails: [onFinish] receives what [engine.getMessage()]
    returns, not the text accumulated from the deltas.  For an engine
    whose final message holds one character more than it streamed, the
    two differ. *)
Lemma finish_text_is_not_the_accumulated_text :
  filter is_OnFinish
    (emitted (record_stream Stub.longer_final None []) (Stub.init tt))
    = [OnFinish "The answer is 4." Stub.usage1]
  /\ last (updates_of
             (emitted (record_stream Stub.longer_final None [])
                (Stub.init tt))) ""
     = "The answer is 4"
  /\ ~ (forall s u,
          In (OnFinish s u)
             (emitted (record_stream Stub.longer_final None [])
                (Stub.init tt)) ->
          s = last (updates_of
                      (emitted (record_stream Stub.longer_final None [])
                         (Stub.init tt))) "").
Proof.
  split; [reflexivity |]. split; [reflexivity |].
  intros H. specialize (H "The answer is 4." Stub.usage1).
  assert (Hin : In (OnFinish "The answer is 4." Stub.usage1)
                  (emitted (record_stream Stub.longer_final None [])
                     (Stub.init tt))).
  { vm_compute. tauto. }
  apply H in Hin. vm_compute in Hin. discriminate Hin.
Qed.

(** C6, amended.  When the stream ends without throwing, some chunk
    carried a usage summary and [engine.getMessage()] returns, the
    Completion Streamer calls [onFinish] exactly once, as its last action,
    with the text returned by [engine.getMessage()] and the usage summary
    seen last; the text accumulated from the deltas is the last text
    handed to [onUpdate], and [onFinish] receives that text when the
    engine's final message is the concatenation of the deltas. *)
Theorem finish_once_with_engine_message :
  forall (Usage World : Type) (env : Env Usage World)
         (eng : MLCEngine Usage World) (max_tokens : option N)
         (msgs : list Message) (st : State Usage World)
         (it : AsyncIter Usage) (w w' : World) (fin : string) (u : Usage),
    let req := mkRequest true msgs max_tokens true in
    let evs := emitted (record_stream env max_tokens msgs) st in
    engine env = Some eng ->
    create eng req (world st) = (Fulfilled it, w) ->
    iter_error it = None ->
    getMessage eng w = (Fulfilled fin, w') ->
    last_usage None (chunks_of it) = Some u ->
    evs = EngineCreate req :: map OnUpdate (running "" (chunks_of it))
          ++ [EngineGetMessage; OnFinish fin u]
    /\ filter is_OnFinish evs = [OnFinish fin u]
    /\ last (updates_of evs) "" = total "" (chunks_of it)
    /\ (fin = total "" (chunks_of it) ->
        filter is_OnFinish evs = [OnFinish (last (updates_of evs) "") u]).
Proof.
  intros Usage World env eng max_tokens msgs st it w w' fin u req evs
         Heng Hcreate Hend Hget Hu.
  pose proof (record_stream_run env max_tokens msgs st Heng) as Hrun.
  cbv zeta in Hrun. fold req in Hrun.
  rewrite Hcreate, Hend, Hget, Hu in Hrun.
  assert (Hevs : evs = EngineCreate req
                       :: map OnUpdate (running "" (chunks_of it))
                       ++ [EngineGetMessage; OnFinish fin u]).
  { unfold evs. now rewrite (emitted_after _ (f_equal snd Hrun)). }
  assert (Hfin : filter is_OnFinish evs = [OnFinish fin u]).
  { rewrite Hevs. simpl.
    now rewrite filter_app, no_finish_among_updates. }
  assert (Hlast : last (updates_of evs) "" = total "" (chunks_of it)).
  { rewrite Hevs. simpl. rewrite updates_of_app, updates_of_map. simpl.
    rewrite app_nil_r. apply last_running. }
  repeat split; try assumption.
  intros Heq. rewrite Hfin, Hlast, Heq. reflexivity.
Qed.

Lemma finish_once_with_engine_message_witness :
  emitted (record_stream Stub.plain_answer None []) (Stub.init tt)
    = [EngineCreate (mkRequest true [] None true);
       OnUpdate "The answer"; OnUpdate "The answer is 4.";
       OnUpdate "The answer is 4.";
       EngineGetMessage; OnFinish "The answer is 4." Stub.usage1].
Proof.
  exact (proj1
           (finish_once_with_engine_message Stub.plain_answer None []
              (Stub.init tt) (w := tt) (w' := tt) (fin := "The answer is 4.")
              (u := Stub.usage1) eq_refl eq_refl eq_refl eq_refl eq_refl)).
Defined.

(** ** Properties of the turn in [src/lib/llm.ts] *)

Section LlmFacts.

Context {Usage World : Type}.
Local Abbreviation M := (M Usage World).
Local Abbreviation State := (State Usage World).
Variable env : Env Usage World.

Lemma handleError_run (e : Error) (st : State) :
  Llm.handleError e st =
  (Normal tt,
   after st (world st)
     [ConsoleError e; OnErrorUpdate true;
      OnResultUpdate ("Error: " +++ message e)]).
Proof.
  unfold Llm.handleError, bind, emit, after; simpl.
  now rewrite <- !app_assoc.
Qed.

Lemma try_catch_never_throws {A} (m : M A) (h : Error -> M A) :
  (forall e, never_throws (h e)) -> never_throws (try_catch m h).
Proof.
  intros Hh st e. unfold try_catch.
  destruct (m st) as [[a|e'|] st'] eqn:Hm; simpl.
  - discriminate.
  - apply Hh.
  - discriminate.
Qed.

Lemma try_catch_id {A} (m : M A) (h : Error -> M A) (st : State) :
  (forall e, fst (m st) <> Thrown e) -> try_catch m h st = m st.
Proof.
  intros H. unfold try_catch.
  destruct (m st) as [[a|e|] st'] eqn:Hm; try reflexivity.
  exfalso. apply (H e). reflexivity.
Qed.

Lemma try_catch_bind {A B} (m : M A) (k : A -> M B) (h : Error -> M B)
    (st : State) :
  try_catch (bind m k) h st =
  match m st with
  | (Normal a, st1) => try_catch (k a) h st1
  | (Thrown e, st1) => h e st1
  | (Pending, st1) => (Pending, st1)
  end.
Proof.
  unfold try_catch, bind. destruct (m st) as [[a|e|] st1]; reflexivity.
Qed.

Lemma handleError_never_throws (e : Error) :
  never_throws (Llm.handleError (Usage := Usage) (World := World) e).
Proof. intros st e'. rewrite handleError_run. discriminate. Qed.

Lemma streamResponse_never_throws (max_tokens : option N)
    (msgs : list Message) (onUpdate : string -> M unit)
    (onFinish : string -> Usage -> M unit) (onError : Error -> M unit) :
  (forall e, never_throws (onError e)) ->
  never_throws (streamResponse_with env max_tokens msgs onUpdate onFinish onError).
Proof.
  intros H. unfold streamResponse_with. destruct (engine env).
  - now apply try_catch_never_throws.
  - apply H.
Qed.

Lemma runAndExplainCode_never_throws (fuel : nat) (code : string) :
  never_throws (Llm.runAndExplainCode env fuel code).
Proof.
  destruct fuel; simpl.
  - intros st e. discriminate.
  - apply try_catch_never_throws. apply handleError_never_throws.
Qed.

Lemma run_if_code_never_throws (run : string -> M unit)
    (code : nullable string) :
  (forall c, never_throws (run c)) ->
  never_throws (Llm.run_if_code run code).
Proof.
  intros H. destruct code as [| |c]; simpl;
    try (intros st e; discriminate).
  destruct (truthy c); [apply H | intros st e; discriminate].
Qed.

(** The call of the [onFinish] closure returns at once; the state is
    the one the closure leads to: the response and the usage delivered,
    and then what running the extracted code, if any, does. *)
Lemma onResponse_run (run : string -> M unit) (response : string)
    (u : Usage) (st : State) :
  Llm.onResponse env run response u st =
  (Normal tt,
   snd (Llm.run_if_code run (extractCodeFromMarkdown env response)
          (after st (world st) [OnResultUpdate response; OnUsageUpdate u]))).
Proof.
  unfold Llm.onResponse, detached. f_equal.
  unfold bind, emit, after; simpl.
  now rewrite <- !app_assoc.
Qed.

Lemma onResponse_never_throws (run : string -> M unit) (response : string)
    (u : Usage) :
  never_throws (Llm.onResponse env run response u).
Proof. intros st e. discriminate. Qed.

Lemma handleCodeError_run (run : string -> M unit) (err code : string)
    (st : State) :
  Llm.handleCodeError env run err code st =
  Llm.streamResponse env
    (conversation st ++ [mkMessage user (Llm.errorMessage err code)])
    (fun s => emit (OnResultUpdate s))
    (Llm.onResponse env run)
    Llm.handleError
    (pushed st (mkMessage user (Llm.errorMessage err code))).
Proof.
  unfold Llm.handleCodeError. rewrite try_catch_id.
  - reflexivity.
  - intros e. unfold bind, push, get_messages; simpl.
    apply streamResponse_never_throws. apply handleError_never_throws.
Qed.

Lemma handleCodeError_never_throws (run : string -> M unit)
    (err code : string) :
  never_throws (Llm.handleCodeError env run err code).
Proof.
  apply try_catch_never_throws. apply handleError_never_throws.
Qed.

(** One invocation of [runAndExplainCode], by the sandbox's answer. *)
Lemma runAndExplainCode_step (fuel : nat) (code : string) (st : State) :
  Llm.runAndExplainCode env (S fuel) code st =
  match executePython env code (world st) with
  | (Rejected e, w) => Llm.handleError e (after st w [ExecutePython code])
  | (Fulfilled r, w) =>
      if truthy_str (error r) then
        let err := template (error r) in
        Llm.handleCodeError env (Llm.runAndExplainCode env fuel) err code
          (after st w
             [ExecutePython code; ConsoleError (mkError err);
              OnErrorUpdate true; OnResultUpdate ("Error: " +++ err)])
      else
        match results r with
        | value res =>
            let output := Llm.composed_output res in
            (Normal tt,
             pushed
               (after st w
                  (ExecutePython code ::
                   if truthy output
                   then [OnCodeOutputUpdate (trim output)] else []))
               (Llm.successMessage output))
        | _ => (Normal tt, after st w [ExecutePython code])
        end
  end.
Proof.
  change (Llm.runAndExplainCode env (S fuel) code st) with
    (try_catch
       (emit (ExecutePython code) ;;
        r <- await (executePython env code) ;;
        if truthy_str (error r) then
          Llm.handleError (mkError (template (error r))) ;;
          Llm.handleCodeError env (Llm.runAndExplainCode env fuel)
            (template (error r)) code
        else
          match results r with
          | value res =>
              (if truthy (Llm.composed_output res)
               then emit (OnCodeOutputUpdate (trim (Llm.composed_output res)))
               else ret tt) ;;
              push (Llm.successMessage (Llm.composed_output res))
          | _ => ret tt
          end)
       Llm.handleError st).
  rewrite try_catch_bind, emit_after. cbv beta iota.
  rewrite try_catch_bind. unfold await at 1.
  change (world (after st (world st) [ExecutePython code])) with (world st).
  destruct (executePython env code (world st)) as [[r|e] w];
    cbv beta iota;
    change (mkState w (conversation (after st (world st) [ExecutePython code]))
              (trace (after st (world st) [ExecutePython code])))
      with (after st w [ExecutePython code]);
    [|reflexivity].
  destruct (truthy_str (error r)).
  - rewrite try_catch_bind, handleError_run. cbv beta iota zeta.
    rewrite after_after. rewrite try_catch_id.
    + reflexivity.
    + intros e. apply handleCodeError_never_throws.
  - destruct (results r) as [| |res]; try reflexivity.
    cbv zeta. rewrite try_catch_bind.
    destruct (truthy (Llm.composed_output res)).
    + rewrite emit_after, after_after. reflexivity.
    + unfold ret. cbv beta iota. unfold try_catch, push, pushed, after; simpl.
      now rewrite <- ?app_assoc, ?app_nil_r.
Qed.

End LlmFacts.

(** *** A sandbox answer with neither results nor error *)

(** C10.  When the sandbox's answer has no [results] and no [error]
    (absent, null, or an empty error text), [runAndExplainCode] does
    nothing after the sandbox call: no callback is invoked, the
    conversation is unchanged, and the function returns. *)
Theorem silent_without_results_or_error :
  forall (Usage World : Type) (env : Env Usage World) (fuel : nat)
         (code : string) (st : State Usage World) (r : PyodideResult)
         (w : World),
    executePython env code (world st) = (Fulfilled r, w) ->
    truthy_str (error r) = false ->
    truthy_obj (results r) = false ->
    Llm.runAndExplainCode env (S fuel) code st =
      (Normal tt,
       mkState w (conversation st) (trace st ++ [ExecutePython code])).
Proof.
  intros Usage World env fuel code st r w Hexec Herr Hres.
  rewrite runAndExplainCode_step, Hexec, Herr.
  destruct (results r); try reflexivity. discriminate Hres.
Qed.

Lemma silent_without_results_or_error_witness :
  Llm.runAndExplainCode Stub.silent_sandbox 1 "pass" (Stub.init tt) =
    (Normal tt, mkState tt [] [ExecutePython "pass"]).
Proof.
  exact (silent_without_results_or_error Stub.silent_sandbox 0 "pass"
           (Stub.init tt) (r := mkPyodideResult undefined undefined)
           eq_refl eq_refl eq_refl).
Defined.

(** *** The composed output *)

Lemma shown_false_iff (x : nullable string) :
  Llm.shown x = false <->
  (x = undefined \/ x = null \/ x = value "" \/ x = value "null").
Proof.
  split.
  - destruct x as [| |s]; simpl; intros H; auto.
    apply andb_false_iff in H. destruct H as [H|H];
      apply negb_false_iff, String.eqb_eq in H; subst; auto.
  - intros [H|[H|[H|H]]]; subst; reflexivity.
Qed.

(** C2, as stated, fails: for [{stdout: "5\n", result: "10"}] the code
    composes "5\n\n10", with the line feed it puts after stdout, and
    signals that text; this is not the concatenation "5\n10" of the two
    fields. *)
Lemma composed_output_is_not_the_concatenation :
  Llm.composed_output (mkExecResults (value ("5" +++ nl)) (value "10"))
    = "5" +++ nl +++ nl +++ "10"
  /\ concatenation_of_fields (mkExecResults (value ("5" +++ nl)) (value "10"))
     = "5" +++ nl +++ "10"
  /\ Llm.composed_output (mkExecResults (value ("5" +++ nl)) (value "10"))
     <> concatenation_of_fields
          (mkExecResults (value ("5" +++ nl)) (value "10"))
  /\ emitted (Llm.runAndExplainCode Stub.five_ten 1 "print(5); 10")
       (Stub.init tt)
     = [ExecutePython "print(5); 10";
        OnCodeOutputUpdate ("5" +++ nl +++ nl +++ "10")].
Proof.
  repeat split; try reflexivity. vm_compute. discriminate.
Qed.

(** C2, amended.  For a successful sandbox answer, the composed output is
    stdout followed by a line feed, when stdout is kept, and then the
    result, when it is kept; a field is left out exactly when it is
    absent, null, empty or the text "null".  The text signalled for
    display is the composed output trimmed, and nothing is signalled when
    the composed output is empty; the untrimmed output is appended to the
    conversation in the success message.  [{stdout: "", result: "null"}]
    composes to the empty output, and [{stdout: "5\n", result: "10"}] to
    "5\n\n10". *)
Theorem success_composition :
  forall (Usage World : Type) (env : Env Usage World) (fuel : nat)
         (code : string) (st : State Usage World) (r : PyodideResult)
         (res : ExecResults) (w : World),
    executePython env code (world st) = (Fulfilled r, w) ->
    truthy_str (error r) = false ->
    results r = value res ->
    let output := Llm.composed_output res in
    output =
      (if Llm.shown (stdout res) then template (stdout res) +++ nl else "")
      +++ (if Llm.shown (result res) then template (result res) else "")
    /\ (forall x, Llm.shown x = false <->
                  (x = undefined \/ x = null \/ x = value ""
                   \/ x = value "null"))
    /\ Llm.runAndExplainCode env (S fuel) code st =
         (Normal tt,
          mkState w
            (conversation st ++ [Llm.successMessage output])
            (trace st ++
             ExecutePython code ::
             if truthy output then [OnCodeOutputUpdate (trim output)]
             else []))
    /\ Llm.composed_output (mkExecResults (value "") (value "null")) = ""
    /\ Llm.composed_output (mkExecResults (value ("5" +++ nl)) (value "10"))
       = "5" +++ nl +++ nl +++ "10".
Proof.
  intros Usage World env fuel code st r res w Hexec Herr Hres output.
  split.
  { unfold output, Llm.composed_output.
    destruct (Llm.shown (stdout res)), (Llm.shown (result res)); simpl;
      rewrite ?append_empty_r; reflexivity. }
  split; [exact shown_false_iff |].
  split; [|split; reflexivity].
  rewrite runAndExplainCode_step, Hexec, Herr, Hres. reflexivity.
Qed.

Lemma success_composition_witness :
  Llm.runAndExplainCode Stub.five_ten 1 "print(5); 10" (Stub.init tt) =
    (Normal tt,
     mkState tt
       [Llm.successMessage ("5" +++ nl +++ nl +++ "10")]
       [ExecutePython "print(5); 10";
        OnCodeOutputUpdate ("5" +++ nl +++ nl +++ "10")]).
Proof.
  exact (proj1 (proj2 (proj2
           (success_composition Stub.five_ten 0 "print(5); 10"
              (Stub.init tt) (r := Stub.success ("5" +++ nl) "10")
              eq_refl eq_refl eq_refl)))).
Defined.

(** *** Failure and recovery *)

Section Recovery.

Context {Usage World : Type}.
Local Abbreviation M := (M Usage World).
Local Abbreviation State := (State Usage World).
Variable env : Env Usage World.

(** A failing invocation is the signal, the error report pushed on the
    conversation, and a completion on the conversation so extended. *)
Lemma failure_step (fuel : nat) (code : string) (st : State)
    (r : PyodideResult) (w : World) :
  executePython env code (world st) = (Fulfilled r, w) ->
  truthy_str (error r) = true ->
  let reason := template (error r) in
  let report := mkMessage user (Llm.errorMessage reason code) in
  Llm.runAndExplainCode env (S fuel) code st =
    Llm.streamResponse env (conversation st ++ [report])
      (fun s => emit (OnResultUpdate s))
      (Llm.onResponse env (Llm.runAndExplainCode env fuel))
      Llm.handleError
      (mkState w (conversation st ++ [report])
         (trace st ++ signalled code reason)).
Proof.
  intros Hexec Herr reason report.
  rewrite runAndExplainCode_step, Hexec, Herr. cbv zeta.
  rewrite handleCodeError_run. reflexivity.
Qed.

(** A completion that finishes hands the final message to the extractor
    and runs the code it finds, if any; its own promise is fulfilled
    without waiting for that run. *)
Lemma finish_step (run : string -> M unit) (msgs : list Message)
    (st : State) (eng : MLCEngine Usage World) (it : AsyncIter Usage)
    (w1 w2 : World) (fin : string) (u : Usage) :
  engine env = Some eng ->
  let req := mkRequest true msgs (Some MAX_CONTEXT_LENGTH) true in
  create eng req (world st) = (Fulfilled it, w1) ->
  iter_error it = None ->
  getMessage eng w1 = (Fulfilled fin, w2) ->
  last_usage None (chunks_of it) = Some u ->
  Llm.streamResponse env msgs (fun s => emit (OnResultUpdate s))
    (Llm.onResponse env run) Llm.handleError st =
  (Normal tt,
   snd (Llm.run_if_code run (extractCodeFromMarkdown env fin)
          (after st w2 (answered req it fin u)))).
Proof.
  intros Heng req Hcreate Hend Hget Hu.
  unfold Llm.streamResponse.
  rewrite (streamResponse_run env (Some MAX_CONTEXT_LENGTH) msgs
             OnResultUpdate _ _ st Heng).
  fold req. rewrite Hcreate. cbv zeta. rewrite Hend, Hget, Hu.
  rewrite try_catch_id.
  - rewrite onResponse_run, !after_after. reflexivity.
  - intros e. apply onResponse_never_throws.
Qed.

End Recovery.

(** *** No cap on the recovery attempts *)

Section NoCap.

Context {Usage World : Type}.
Local Abbreviation State := (State Usage World).
Variable env : Env Usage World.
Variable eng : MLCEngine Usage World.
Hypothesis engine_ready : engine env = Some eng.

(** The sandbox always fails. *)
Hypothesis always_fails :
  forall code w,
  exists r w',
    executePython env code w = (Fulfilled r, w')
    /\ truthy_str (error r) = true.

(** Every completion finishes, with a usage summary and with a final
    message that holds extractable code. *)
Hypothesis always_code :
  forall req w,
  exists it w1 fin w2 u c,
    create eng req w = (Fulfilled it, w1)
    /\ iter_error it = None
    /\ last_usage None (chunks_of it) = Some u
    /\ getMessage eng w1 = (Fulfilled fin, w2)
    /\ extractCodeFromMarkdown env fin = value c
    /\ truthy c = true.

Lemma executions_app (a b : list (Event Usage)) :
  executions (a ++ b) = executions a + executions b.
Proof. unfold executions. now rewrite filter_app, length_app. Qed.

Lemma requests_of_app (a b : list (Event Usage)) :
  requests_of (a ++ b) = requests_of a ++ requests_of b.
Proof.
  induction a as [|ev a IH]; simpl; [reflexivity |].
  destruct ev; simpl; rewrite ?IH; reflexivity.
Qed.

Lemma executions_answered (req : CompletionRequest) (it : AsyncIter Usage)
    (fin : string) (u : Usage) :
  executions (answered req it fin u) = 0.
Proof.
  unfold answered, executions. simpl. rewrite filter_app. simpl.
  rewrite app_nil_r.
  induction (running "" (chunks_of it)) as [|x l IH]; [reflexivity | exact IH].
Qed.

Lemma requests_of_answered (req : CompletionRequest) (it : AsyncIter Usage)
    (fin : string) (u : Usage) :
  requests_of (answered req it fin u) = [req_messages req].
Proof.
  unfold answered. simpl. rewrite requests_of_app. simpl.
  rewrite app_nil_r. f_equal.
  induction (running "" (chunks_of it)) as [|x l IH]; [reflexivity | exact IH].
Qed.

(** Followed for [fuel] sandbox invocations, the loop has invoked the
    sandbox [fuel] times and has asked the model for a fix [fuel]
    times. *)
Lemma recovery_goes_on :
  forall (fuel : nat) (code : string) (st : State),
  exists evs,
    trace (snd (Llm.runAndExplainCode env fuel code st)) = trace st ++ evs
    /\ executions evs = fuel
    /\ length (requests_of evs) = fuel.
Proof.
  induction fuel as [|fuel IH]; intros code st.
  - exists []. simpl. rewrite app_nil_r. repeat split; reflexivity.
  - destruct (always_fails code (world st)) as [r [w [Hexec Herr]]].
    rewrite (failure_step env fuel code st Hexec Herr). cbv zeta.
    set (report := mkMessage user
                     (Llm.errorMessage (template (error r)) code)).
    set (st1 := mkState w (conversation st ++ [report])
                  (trace st ++ signalled code (template (error r)))).
    destruct (always_code
                (mkRequest true (conversation st ++ [report])
                   (Some MAX_CONTEXT_LENGTH) true) w)
      as [it [w1 [fin [w2 [u [c [Hcreate [Hend [Hu [Hget [Hcode Hc]]]]]]]]]]].
    rewrite (finish_step env (Llm.runAndExplainCode env fuel)
               (conversation st ++ [report]) st1
               engine_ready Hcreate Hend Hget Hu).
    rewrite Hcode. unfold Llm.run_if_code. rewrite Hc. cbn [snd].
    match goal with
    | |- context [Llm.runAndExplainCode env fuel c ?s] =>
        destruct (IH c s) as [evs [Htr [Hex Hreq]]]
    end.
    exists (signalled code (template (error r))
            ++ answered
                 (mkRequest true (conversation st ++ [report])
                    (Some MAX_CONTEXT_LENGTH) true) it fin u
            ++ evs).
    split.
    + rewrite Htr. unfold after, st1. cbn [trace].
      rewrite <- !app_assoc. reflexivity.
    + rewrite !executions_app, !requests_of_app, !length_app.
      rewrite executions_answered, requests_of_answered, Hex, Hreq.
      split; reflexivity.
Qed.

End NoCap.

(** C3, as stated, fails: with the model that always answers with code
    and the sandbox that always fails, no number bounds the sandbox
    invocations of the loop, nor its requests to the model. *)
Lemma recovery_is_not_bounded :
  ~ (exists bound,
        forall fuel,
          executions
            (trace (snd (Llm.runAndExplainCode Stub.always_failing fuel
                           "1/0" (Stub.init tt)))) <= bound)
  /\ ~ (exists bound,
          forall fuel,
            length
              (requests_of
                 (trace (snd (Llm.runAndExplainCode Stub.always_failing fuel
                                "1/0" (Stub.init tt))))) <= bound).
Proof.
  assert (Hgo : forall fuel,
             exists evs,
               trace (snd (Llm.runAndExplainCode Stub.always_failing fuel
                             "1/0" (Stub.init tt)))
                 = trace (Stub.init tt) ++ evs
               /\ executions evs = fuel
               /\ length (requests_of evs) = fuel).
  { intros fuel.
    apply (recovery_goes_on Stub.always_failing
             (eng := Stub.engine_saying [Stub.fence "1/0"] (Stub.fence "1/0"))
             eq_refl).
    - intros code w. do 2 eexists. split; reflexivity.
    - intros req w. do 6 eexists. repeat split; reflexivity. }
  split; intros [bound H]; specialize (H (S bound));
    destruct (Hgo (S bound)) as [evs [Htr [Hex Hreq]]];
    rewrite Htr in H; simpl in H.
  - rewrite Hex in H. lia.
  - rewrite Hreq in H. lia.
Qed.

(** C3, amended.  The recovery loop has no cap.  With a sandbox that
    always fails and a model whose every response holds extractable code,
    the numbers of the loop's sandbox invocations and of its requests to
    the model exceed every bound. *)
Theorem recovery_has_no_cap :
  forall (Usage World : Type) (env : Env Usage World)
         (eng : MLCEngine Usage World),
    engine env = Some eng ->
    (forall code w,
        exists r w',
          executePython env code w = (Fulfilled r, w')
          /\ truthy_str (error r) = true) ->
    (forall req w,
        exists it w1 fin w2 u c,
          create eng req w = (Fulfilled it, w1)
          /\ iter_error it = None
          /\ last_usage None (chunks_of it) = Some u
          /\ getMessage eng w1 = (Fulfilled fin, w2)
          /\ extractCodeFromMarkdown env fin = value c
          /\ truthy c = true) ->
    forall (code : string) (st : State Usage World) (bound : nat),
    exists fuel,
      bound < executions
                (emitted (Llm.runAndExplainCode env fuel code) st)
      /\ bound < length
                   (requests_of
                      (emitted (Llm.runAndExplainCode env fuel code) st)).
Proof.
  intros Usage World env eng Heng Hfail Hcode code st bound.
  exists (S bound).
  destruct (recovery_goes_on env Heng Hfail Hcode (S bound) code st)
    as [evs [Htr [Hex Hreq]]].
  assert (Hem : emitted (Llm.runAndExplainCode env (S bound) code) st
                = evs).
  { unfold emitted. rewrite Htr.
    now rewrite skipn_app, skipn_all, Nat.sub_diag. }
  rewrite Hem, Hex, Hreq. split; lia.
Qed.

Lemma recovery_has_no_cap_witness :
  exists fuel,
    100 < executions
            (emitted
               (Llm.runAndExplainCode Stub.always_failing fuel "1/0")
               (Stub.init tt))
    /\ 100 < length
               (requests_of
                  (emitted
                     (Llm.runAndExplainCode Stub.always_failing fuel
                        "1/0")
                     (Stub.init tt))).
Proof.
  refine (@recovery_has_no_cap nat unit Stub.always_failing
            (Stub.engine_saying [Stub.fence "1/0"] (Stub.fence "1/0"))
            eq_refl _ _ "1/0" (Stub.init tt) 100).
  - intros code w. do 2 eexists. split; reflexivity.
  - intros req w. do 6 eexists. repeat split; reflexivity.
Defined.

(** *** The conversation only grows *)

Section Growth.

Context {Usage World : Type}.
Local Abbreviation M := (M Usage World).
Local Abbreviation State := (State Usage World).
Variable env : Env Usage World.

Lemma prefix_of_refl {A} (l : list A) : prefix_of l l.
Proof. exists []. now rewrite app_nil_r. Qed.

Lemma prefix_of_trans {A} (a b c : list A) :
  prefix_of a b -> prefix_of b c -> prefix_of a c.
Proof.
  intros [k Hk] [k' Hk']. exists (k ++ k'). subst. now rewrite app_assoc.
Qed.

Lemma prefix_of_app {A} (l k : list A) : prefix_of l (l ++ k).
Proof. now exists k. Qed.

(** Two chains that meet in [b] make one chain, for a transitive
    relation. *)
Lemma chain_join {A} (R : A -> A -> Prop) :
  (forall x y z, R x y -> R y z -> R x z) ->
  forall (l1 l2 : list A) (a b c : A),
    chain R (a :: l1 ++ [b]) ->
    chain R (b :: l2 ++ [c]) ->
    chain R (a :: l1 ++ l2 ++ [c]).
Proof.
  intros Rtrans l1. induction l1 as [|y l1 IH]; intros l2 a b c H1 H2.
  - simpl in H1. destruct H1 as [Hab _].
    change (chain R (a :: l2 ++ [c])).
    destruct (l2 ++ [c]) as [|x t] eqn:Hl.
    + exact I.
    + destruct H2 as [Hbx Hrest]. split; [eauto | exact Hrest].
  - change (R a y /\ chain R (y :: l1 ++ [b])) in H1.
    destruct H1 as [Hay H1].
    change (R a y /\ chain R (y :: l1 ++ l2 ++ [c])).
    split; [exact Hay | eapply IH; eassumption].
Qed.

Lemma requests_of_results (l : list string) :
  requests_of (map (@OnResultUpdate Usage) l) = [].
Proof. induction l as [|x l IH]; [reflexivity | exact IH]. Qed.

Lemma grows_refl (st : State) : grows st st.
Proof.
  exists [], []. rewrite !app_nil_r. repeat split.
  - constructor.
  - apply prefix_of_refl.
Qed.

Lemma grows_trans (st1 st2 st3 : State) :
  grows st1 st2 -> grows st2 st3 -> grows st1 st3.
Proof.
  intros [x1 [e1 [Hc1 [Ht1 [Hk1 Hch1]]]]] [x2 [e2 [Hc2 [Ht2 [Hk2 Hch2]]]]].
  exists (x1 ++ x2), (e1 ++ e2). repeat split.
  - rewrite Hc2, Hc1. now rewrite app_assoc.
  - rewrite Ht2, Ht1. now rewrite app_assoc.
  - apply Forall_app. now split.
  - rewrite requests_of_app, <- app_assoc.
    eapply chain_join; [apply @prefix_of_trans | exact Hch1 | exact Hch2].
Qed.

(** Events that hold no request, or requests with the conversation as it
    is, leave the conversation alone. *)
Lemma grows_after (st : State) (w : World) (evs : list (Event Usage)) :
  Forall (fun ms => ms = conversation st) (requests_of evs) ->
  grows st (after st w evs).
Proof.
  intros H. exists [], evs. simpl. rewrite app_nil_r. repeat split.
  - constructor.
  - induction (requests_of evs) as [|ms l IH]; simpl.
    + split; [apply prefix_of_refl | exact I].
    + inversion H as [|? ? Hms Hl]; subst.
      split; [apply prefix_of_refl | now apply IH].
Qed.

Lemma grows_pushed (st : State) (m : Message) :
  success_summary m \/ error_report m -> grows st (pushed st m).
Proof.
  intros H. exists [m], []. simpl. rewrite app_nil_r. repeat split.
  - now constructor.
  - apply prefix_of_app.
Qed.

Lemma try_catch_grows (m : M unit) (h : Error -> M unit) (st : State) :
  grows st (snd (m st)) ->
  (forall e st1, grows st1 (snd (h e st1))) ->
  grows st (snd (try_catch m h st)).
Proof.
  intros Hm Hh. unfold try_catch.
  destruct (m st) as [[a|e|] st1]; simpl in *; try exact Hm.
  eapply grows_trans; [exact Hm | apply Hh].
Qed.

Lemma handleError_grows (e : Error) (st : State) :
  grows st (snd (Llm.handleError e st)).
Proof.
  rewrite handleError_run. apply grows_after. simpl. constructor.
Qed.

Lemma run_if_code_grows (run : string -> M unit) (code : nullable string)
    (st : State) :
  (forall c st1, grows st1 (snd (run c st1))) ->
  grows st (snd (Llm.run_if_code run code st)).
Proof.
  intros H. destruct code as [| |c]; simpl; try apply grows_refl.
  destruct (truthy c); [apply H | apply grows_refl].
Qed.

(** A completion on the conversation as it is. *)
Lemma streamResponse_grows (run : string -> M unit) (st : State) :
  (forall c st1, grows st1 (snd (run c st1))) ->
  grows st
    (snd (Llm.streamResponse env (conversation st)
            (fun s => emit (OnResultUpdate s))
            (Llm.onResponse env run) Llm.handleError st)).
Proof.
  intros Hrun. unfold Llm.streamResponse.
  destruct (engine env) as [eng|] eqn:Heng.
  - rewrite (streamResponse_run env (Some MAX_CONTEXT_LENGTH)
               (conversation st) OnResultUpdate _ _ st Heng).
    set (req := mkRequest true (conversation st)
                  (Some MAX_CONTEXT_LENGTH) true).
    assert (Hpre : forall w l tail,
               requests_of tail = [] ->
               grows st
                 (after st w
                    ((EngineCreate req :: map OnResultUpdate l) ++ tail))).
    { intros w l tail Htail. apply grows_after.
      rewrite requests_of_app. simpl.
      rewrite requests_of_results, Htail. simpl.
      constructor; [reflexivity | constructor]. }
    destruct (create eng req (world st)) as [[it|e] w].
    + cbv zeta. destruct (iter_error it) as [e|].
      * rewrite handleError_run, after_after. apply Hpre. reflexivity.
      * destruct (getMessage eng w) as [[fin|e] w'].
        -- destruct (last_usage None (chunks_of it)) as [u|].
           ++ eapply grows_trans with
                (st2 := after
                          (after st w
                             (EngineCreate req
                              :: map OnResultUpdate
                                   (running "" (chunks_of it))))
                          w' [EngineGetMessage]).
              ** rewrite after_after. apply Hpre. reflexivity.
              ** apply try_catch_grows; [|intros; apply handleError_grows].
                 rewrite onResponse_run. eapply grows_trans.
                 2: now apply run_if_code_grows.
                 apply grows_after. simpl. constructor.
           ++ rewrite handleError_run, !after_after. apply Hpre.
              reflexivity.
        -- rewrite handleError_run, !after_after. apply Hpre. reflexivity.
    + rewrite handleError_run, after_after. apply grows_after.
      simpl. constructor; [reflexivity | constructor].
  - unfold streamResponse_with. rewrite Heng. apply handleError_grows.
Qed.

Lemma runAndExplainCode_grows :
  forall (fuel : nat) (code : string) (st : State),
    grows st (snd (Llm.runAndExplainCode env fuel code st)).
Proof.
  induction fuel as [|fuel IH]; intros code st.
  - apply grows_refl.
  - rewrite runAndExplainCode_step.
    destruct (executePython env code (world st)) as [[r|e] w].
    + destruct (truthy_str (error r)).
      * cbv zeta. rewrite handleCodeError_run.
        set (report := mkMessage user
                         (Llm.errorMessage (template (error r)) code)).
        match goal with
        | |- grows st (snd (Llm.streamResponse _ _ _ _ _ (pushed ?s _))) =>
            set (st1 := s)
        end.
        eapply grows_trans with (st2 := st1).
        { unfold st1. apply grows_after. simpl. constructor. }
        eapply grows_trans with (st2 := pushed st1 report).
        { apply grows_pushed. right.
          now exists (template (error r)), code. }
        change (conversation st ++ [report])
          with (conversation (pushed st1 report)).
        apply streamResponse_grows. exact IH.
      * destruct (results r) as [| |res].
        -- apply grows_after. simpl. constructor.
        -- apply grows_after. simpl. constructor.
        -- cbv zeta. eapply grows_trans.
           2: { apply grows_pushed. left.
                now exists (Llm.composed_output res). }
           apply grows_after.
           simpl. destruct (truthy (Llm.composed_output res));
             simpl; constructor.
    + rewrite handleError_run, after_after. apply grows_after.
      simpl. constructor.
Qed.

End Growth.

(** C8.  In every turn of [handleUserInput], followed for any number of
    sandbox invocations, the conversation is the system prompt, then the
    user's question, then the messages pushed during the turn; each of
    those is the success summary (an assistant message) or the error
    report (a user message), so an assistant response, an error report or
    an explanation request; and the conversations sent to the engine,
    in order, begin with the initial two messages and are each an initial
    segment of the next and of the final conversation: nothing is
    removed, reordered or reassigned. *)
Theorem conversation_only_grows :
  forall (Usage World : Type) (env : Env Usage World) (fuel : nat)
         (input : string) (st : State Usage World),
    let turn := [mkMessage system Llm.SYSTEM_PROMPT; mkMessage user input] in
    let st' := snd (Llm.handleUserInput env fuel input st) in
    exists ext,
      conversation st' = turn ++ ext
      /\ Forall (fun m => success_summary m \/ error_report m) ext
      /\ Forall (fun m => assistant_response m \/ error_report m
                          \/ explanation_request m) ext
      /\ chain prefix_of
           (turn
            :: requests_of (emitted (Llm.handleUserInput env fuel input) st)
            ++ [conversation st']).
Proof.
  intros Usage World env fuel input st turn st'.
  set (st0 := mkState (world st) turn (trace st)).
  assert (Hg : grows st0 st').
  { unfold st'.
    change (Llm.handleUserInput env fuel input st) with
      (try_catch
         (messages <- get_messages ;;
          Llm.streamResponse env messages
            (fun s => emit (OnResultUpdate s))
            (Llm.onResponse env (Llm.runAndExplainCode env fuel))
            Llm.handleError)
         Llm.handleError st0).
    apply try_catch_grows; [|intros; apply handleError_grows].
    change ((messages <- get_messages ;;
             Llm.streamResponse env messages
               (fun s => emit (OnResultUpdate s))
               (Llm.onResponse env (Llm.runAndExplainCode env fuel))
               Llm.handleError) st0)
      with (Llm.streamResponse env (conversation st0)
              (fun s => emit (OnResultUpdate s))
              (Llm.onResponse env (Llm.runAndExplainCode env fuel))
              Llm.handleError st0).
    apply streamResponse_grows. apply runAndExplainCode_grows. }
  destruct Hg as [ext [evs [Hconv [Htrace [Hkind Hchain]]]]].
  exists ext. split; [exact Hconv |]. split; [exact Hkind |]. split.
  - eapply Forall_impl; [|exact Hkind].
    intros m [[out Hm]|Hm]; [left; now subst m | right; now left].
  - assert (Hem : emitted (Llm.handleUserInput env fuel input) st = evs).
    { unfold emitted. fold st'. rewrite Htrace. simpl.
      now rewrite skipn_app, skipn_all, Nat.sub_diag. }
    rewrite Hem. exact Hchain.
Qed.

(** *** The explanation *)

(** C1 does not hold of [src/lib/llm.ts].  When the sandbox answers with
    results, [runAndExplainCode] signals the output, pushes the success
    summary and returns: it sends no further request to the engine and
    never calls [onExplanationUpdate]. *)
Theorem no_explanation_after_success :
  forall (Usage World : Type) (env : Env Usage World) (fuel : nat)
         (code : string) (st : State Usage World) (r : PyodideResult)
         (res : ExecResults) (w : World),
    executePython env code (world st) = (Fulfilled r, w) ->
    truthy_str (error r) = false ->
    results r = value res ->
    fst (Llm.runAndExplainCode env (S fuel) code st) = Normal tt
    /\ requests_of (emitted (Llm.runAndExplainCode env (S fuel) code) st) = []
    /\ filter is_OnExplanationUpdate
         (emitted (Llm.runAndExplainCode env (S fuel) code) st) = [].
Proof.
  intros Usage World env fuel code st r res w Hexec Herr Hres.
  pose proof (runAndExplainCode_step env fuel code st) as Hstep.
  rewrite Hexec, Herr, Hres in Hstep. cbv zeta in Hstep.
  assert (Hem : emitted (Llm.runAndExplainCode env (S fuel) code) st
                = ExecutePython code ::
                  if truthy (Llm.composed_output res)
                  then [OnCodeOutputUpdate (trim (Llm.composed_output res))]
                  else []).
  { unfold emitted. rewrite Hstep. simpl.
    now rewrite skipn_app, skipn_all, Nat.sub_diag. }
  rewrite Hem, Hstep.
  destruct (truthy (Llm.composed_output res)); repeat split; reflexivity.
Qed.

Lemma no_explanation_after_success_witness :
  fst (Llm.runAndExplainCode Stub.code_then_success 1 "print(2+2)"
         (Stub.init tt)) = Normal tt
  /\ requests_of
       (emitted (Llm.runAndExplainCode Stub.code_then_success 1 "print(2+2)")
          (Stub.init tt)) = []
  /\ filter is_OnExplanationUpdate
       (emitted (Llm.runAndExplainCode Stub.code_then_success 1 "print(2+2)")
          (Stub.init tt)) = [].
Proof.
  exact (no_explanation_after_success Stub.code_then_success 0 "print(2+2)"
           (Stub.init tt) (r := Stub.success ("4" +++ nl) "None")
           eq_refl eq_refl eq_refl).
Defined.

(** The whole turn at that input: one request to the engine, one sandbox
    invocation, no explanation; the earlier revision, at the same input,
    sends the second request and delivers the explanation. *)
Lemma turn_without_explanation :
  let now_ :=
    Llm.handleUserInput Stub.code_then_success 3 "What is 2+2?"
      (Stub.init tt) in
  let before :=
    Legacy.handleUserInput Stub.code_then_success "What is 2+2?"
      (Stub.init tt) in
  fst now_ = Normal tt
  /\ executions (trace (snd now_)) = 1
  /\ length (requests_of (trace (snd now_))) = 1
  /\ filter is_OnExplanationUpdate (trace (snd now_)) = []
  /\ length (requests_of (trace (snd before))) = 2
  /\ filter is_OnExplanationUpdate (trace (snd before))
     = [OnExplanationUpdate (Stub.fence "print(2+2)");
        OnExplanationUpdate (Stub.fence "print(2+2)");
        OnExplanationUpdate (Stub.fence "print(2+2)")].
Proof. vm_compute. repeat split; reflexivity. Qed.

Section LegacyFacts.

Context {Usage World : Type}.
Local Abbreviation M := (M Usage World).
Local Abbreviation State := (State Usage World).
Variable env : Env Usage World.

Lemma legacy_handleError_never_throws (prefix : string) (e : Error) :
  never_throws (Legacy.handleError (Usage := Usage) (World := World) e prefix).
Proof. intros st e'. discriminate. Qed.

(** In the earlier revision a successful execution is followed by one
    more completion, on a copy of the conversation extended with the
    executed code and the explanation request; when it finishes, the text
    goes to [onExplanationUpdate], with its usage. *)
Lemma legacy_explains_after_success (code : string) (st : State)
    (r : PyodideResult) (res : ExecResults) (w : World) :
  executePython env code (world st) = (Fulfilled r, w) ->
  truthy_str (error r) = false ->
  results r = value res ->
  let explanationMessages :=
    conversation st ++
    [mkMessage assistant ("```python" +++ nl +++ code +++ nl +++ "```");
     mkMessage user (Legacy.EXPLANATION_PROMPT (result res) (stdout res))] in
  let shown_output :=
    [ExecutePython code;
     OnCodeOutputUpdate
       ("Output:" +++ nl +++ template (stdout res) +++ nl +++
        "Result: " +++ template (result res))] in
  let req := mkRequest true explanationMessages None true in
  Legacy.runAndExplainCode env code st =
    Legacy.streamResponse env explanationMessages
      (fun s => emit (OnExplanationUpdate s))
      (fun explanation u =>
         emit (OnExplanationUpdate explanation) ;; emit (OnUsageUpdate u))
      (fun e => Legacy.handleError e "Error generating explanation")
      (after st w shown_output)
  /\ (forall eng it w1 fin w2 u,
        engine env = Some eng ->
        create eng req w = (Fulfilled it, w1) ->
        iter_error it = None ->
        getMessage eng w1 = (Fulfilled fin, w2) ->
        last_usage None (chunks_of it) = Some u ->
        Legacy.runAndExplainCode env code st =
          (Normal tt,
           after st w2
             (shown_output ++
              EngineCreate req
              :: map OnExplanationUpdate (running "" (chunks_of it))
              ++ [EngineGetMessage; OnExplanationUpdate fin;
                  OnUsageUpdate u]))).
Proof.
  intros Hexec Herr Hres msgs shown_output req.
  assert (Hrun : Legacy.runAndExplainCode env code st =
                 Legacy.streamResponse env msgs
                   (fun s => emit (OnExplanationUpdate s))
                   (fun explanation u =>
                      emit (OnExplanationUpdate explanation) ;;
                      emit (OnUsageUpdate u))
                   (fun e => Legacy.handleError e
                               "Error generating explanation")
                   (after st w shown_output)).
  { unfold Legacy.runAndExplainCode.
    rewrite try_catch_bind, emit_after. cbv beta iota.
    rewrite try_catch_bind. unfold await at 1.
    change (world (after st (world st) [ExecutePython code]))
      with (world st).
    rewrite Hexec. cbv beta iota. rewrite Herr, Hres.
    rewrite try_catch_bind, emit_after. cbv beta iota.
    rewrite try_catch_id.
    - unfold bind at 1. unfold get_messages at 1. cbv beta iota.
      unfold Legacy.generateExplanation. cbv zeta.
      unfold msgs, shown_output, after. cbn [world conversation trace
        stdout result].
      rewrite <- app_assoc. reflexivity.
    - intros e. unfold bind, get_messages. cbv beta iota.
      apply streamResponse_never_throws.
      apply legacy_handleError_never_throws. }
  split; [exact Hrun |].
  intros eng it w1 fin w2 u Heng Hcreate Hend Hget Hu.
  rewrite Hrun. unfold Legacy.streamResponse.
  rewrite (streamResponse_run env None msgs OnExplanationUpdate _ _
             (after st w shown_output) Heng).
  fold req. change (world (after st w shown_output)) with w.
  rewrite Hcreate. cbv zeta. rewrite Hend, Hget, Hu.
  unfold try_catch, bind. rewrite !emit_after. cbv beta iota.
  rewrite !after_after. reflexivity.
Qed.

End LegacyFacts.

(** ** Further properties of [src/lib/llm.ts] *)

Section TurnFacts.

Context {Usage World : Type}.
Local Abbreviation M := (M Usage World).
Local Abbreviation State := (State Usage World).
Variable env : Env Usage World.

Lemma emitted_of_trace {A} (m : M A) (st : State) (evs : list (Event Usage)) :
  trace (snd (m st)) = trace st ++ evs -> emitted m st = evs.
Proof.
  intros H. unfold emitted. rewrite H.
  now rewrite skipn_app, skipn_all, Nat.sub_diag.
Qed.

(** A turn is one completion on the two initial messages. *)
Lemma handleUserInput_run (fuel : nat) (input : string) (st : State) :
  let turn := [mkMessage system Llm.SYSTEM_PROMPT; mkMessage user input] in
  Llm.handleUserInput env fuel input st =
  Llm.streamResponse env turn
    (fun s => emit (OnResultUpdate s))
    (Llm.onResponse env (Llm.runAndExplainCode env fuel))
    Llm.handleError
    (mkState (world st) turn (trace st)).
Proof.
  intros turn.
  change (Llm.handleUserInput env fuel input st) with
    (try_catch
       (messages <- get_messages ;;
        Llm.streamResponse env messages
          (fun s => emit (OnResultUpdate s))
          (Llm.onResponse env (Llm.runAndExplainCode env fuel))
          Llm.handleError)
       Llm.handleError (mkState (world st) turn (trace st))).
  rewrite try_catch_id.
  - reflexivity.
  - intros e. unfold bind, get_messages. cbv beta iota.
    apply streamResponse_never_throws. apply handleError_never_throws.
Qed.

(** A completion that finishes: what the engine answered. *)
Lemma completion_finishes (eng : MLCEngine Usage World)
    (req : CompletionRequest) (w : World) :
  completion_error eng req w = None ->
  exists it w1 fin w2 u,
    create eng req w = (Fulfilled it, w1)
    /\ iter_error it = None
    /\ getMessage eng w1 = (Fulfilled fin, w2)
    /\ last_usage None (chunks_of it) = Some u.
Proof.
  unfold completion_error. intros H.
  destruct (create eng req w) as [[it|e] w1]; [|discriminate].
  destruct (iter_error it) as [e|] eqn:Hit; [discriminate |].
  destruct (getMessage eng w1) as [[fin|e] w2] eqn:Hget; [|discriminate].
  destruct (last_usage None (chunks_of it)) as [u|] eqn:Hu; [|discriminate].
  exists it, w1, fin, w2, u. repeat split; assumption.
Qed.

(** A completion that does not finish ends with the error signal,
    whatever [onFinish] is. *)
Lemma completion_fails (eng : MLCEngine Usage World) (msgs : list Message)
    (onFinish : string -> Usage -> M unit) (st : State) (e : Error) :
  engine env = Some eng ->
  completion_error eng (llm_request msgs) (world st) = Some e ->
  exists w texts mid,
    (mid = [] \/ mid = [EngineGetMessage])
    /\ Llm.streamResponse env msgs (fun s => emit (OnResultUpdate s))
         onFinish Llm.handleError st =
       (Normal tt,
        after st w
          (EngineCreate (llm_request msgs) :: map OnResultUpdate texts
           ++ mid ++ error_signal e)).
Proof.
  intros Heng Herr. unfold Llm.streamResponse.
  rewrite (streamResponse_run env (Some MAX_CONTEXT_LENGTH) msgs
             OnResultUpdate _ _ st Heng).
  unfold completion_error in Herr. fold (llm_request msgs).
  destruct (create eng (llm_request msgs) (world st)) as [[it|e0] w1].
  - cbv zeta. destruct (iter_error it) as [e0|].
    + injection Herr as ->. exists w1, (running "" (chunks_of it)), [].
      split; [now left |].
      rewrite handleError_run, after_after. reflexivity.
    + destruct (getMessage eng w1) as [[fin|e0] w2].
      * destruct (last_usage None (chunks_of it)) as [u|]; [discriminate |].
        injection Herr as <-.
        exists w2, (running "" (chunks_of it)), [EngineGetMessage].
        split; [now right |].
        rewrite handleError_run, !after_after. reflexivity.
      * injection Herr as ->.
        exists w2, (running "" (chunks_of it)), [EngineGetMessage].
        split; [now right |].
        rewrite handleError_run, !after_after. reflexivity.
  - injection Herr as ->. exists w1, [], []. split; [now left |].
    rewrite handleError_run, after_after. reflexivity.
Qed.

End TurnFacts.

(** C9.  When the sandbox answers with an error, [runAndExplainCode]
    signals it ([onErrorUpdate(true)], then the result "Error: " followed
    by the reason), pushes on the conversation the user message "The code
    execution resulted in an error: ", the reason, a line feed, "Code:",
    a line feed and the failing code, and calls the Completion Streamer
    on the conversation so extended.  When that completion finishes with
    a response and a usage summary, the response and the usage are
    delivered and the function is called again, on the extracted code,
    exactly when the extractor returns a non-empty code; when the
    completion does not finish, the error is signalled and the function
    is not called again.  The function's own promise is fulfilled in
    both cases. *)
Theorem failure_signals_and_recovers :
  forall (Usage World : Type) (env : Env Usage World) (fuel : nat)
         (code : string) (st : State Usage World) (r : PyodideResult)
         (w : World),
    executePython env code (world st) = (Fulfilled r, w) ->
    truthy_str (error r) = true ->
    let reason := template (error r) in
    let report :=
      mkMessage user
        ("The code execution resulted in an error: " +++ reason +++ nl +++
         "Code:" +++ nl +++ code) in
    let req :=
      mkRequest true (conversation st ++ [report])
        (Some MAX_CONTEXT_LENGTH) true in
    let signal :=
      [ExecutePython code; ConsoleError (mkError reason);
       OnErrorUpdate true; OnResultUpdate ("Error: " +++ reason)] in
    Llm.runAndExplainCode env (S fuel) code st =
      Llm.streamResponse env (conversation st ++ [report])
        (fun s => emit (OnResultUpdate s))
        (Llm.onResponse env (Llm.runAndExplainCode env fuel))
        Llm.handleError
        (mkState w (conversation st ++ [report]) (trace st ++ signal))
    /\ (forall eng it w1 fin w2 u,
          engine env = Some eng ->
          create eng req w = (Fulfilled it, w1) ->
          iter_error it = None ->
          getMessage eng w1 = (Fulfilled fin, w2) ->
          last_usage None (chunks_of it) = Some u ->
          let st2 :=
            mkState w2 (conversation st ++ [report])
              (trace st ++ signal
               ++ EngineCreate req
                  :: map OnResultUpdate (running "" (chunks_of it))
                  ++ [EngineGetMessage; OnResultUpdate fin;
                      OnUsageUpdate u]) in
          Llm.runAndExplainCode env (S fuel) code st =
            (Normal tt,
             match extractCodeFromMarkdown env fin with
             | value fixedCode =>
                 if truthy fixedCode
                 then snd (Llm.runAndExplainCode env fuel fixedCode st2)
                 else st2
             | _ => st2
             end))
    /\ (forall eng e,
          engine env = Some eng ->
          completion_error eng req w = Some e ->
          exists w' texts mid,
            (mid = [] \/ mid = [EngineGetMessage])
            /\ Llm.runAndExplainCode env (S fuel) code st =
                 (Normal tt,
                  mkState w' (conversation st ++ [report])
                    (trace st ++ signal
                     ++ EngineCreate req :: map OnResultUpdate texts
                     ++ mid
                     ++ [ConsoleError e; OnErrorUpdate true;
                         OnResultUpdate ("Error: " +++ message e)]))).
Proof.
  intros Usage World env fuel code st r w Hexec Herr reason report req
         signal.
  pose proof (failure_step env fuel code st Hexec Herr) as Hstep.
  cbv zeta in Hstep.
  change (mkMessage user (Llm.errorMessage (template (error r)) code))
    with report in Hstep.
  change (signalled code (template (error r))) with signal in Hstep.
  split; [exact Hstep |]. split.
  - intros eng it w1 fin w2 u Heng Hcreate Hend Hget Hu st2.
    rewrite Hstep.
    rewrite (finish_step env (Llm.runAndExplainCode env fuel)
               (conversation st ++ [report])
               (mkState w (conversation st ++ [report]) (trace st ++ signal))
               Heng Hcreate Hend Hget Hu).
    assert (Hst : after
                    (mkState w (conversation st ++ [report])
                       (trace st ++ signal))
                    w2 (answered req it fin u) = st2).
    { unfold after, st2, signal, answered; simpl.
      now rewrite <- app_assoc. }
    fold req. rewrite Hst.
    unfold Llm.run_if_code, ret.
    destruct (extractCodeFromMarkdown env fin) as [| |c]; try reflexivity.
    destruct (truthy c); reflexivity.
  - intros eng e Heng Hcomp.
    destruct (completion_fails env (conversation st ++ [report])
                (Llm.onResponse env (Llm.runAndExplainCode env fuel))
                (mkState w (conversation st ++ [report]) (trace st ++ signal))
                Heng Hcomp)
      as [w' [texts [mid [Hmid Hrun]]]].
    exists w', texts, mid. split; [exact Hmid |].
    rewrite Hstep, Hrun. unfold after, error_signal.
    cbn [world conversation trace]. f_equal. f_equal.
    rewrite <- app_assoc. reflexivity.
Qed.

Lemma failure_signals_and_recovers_witness :
  Llm.runAndExplainCode Stub.failing_no_fix 1 "1/0" (Stub.init tt) =
    (Normal tt,
     mkState tt
       [mkMessage user
          ("The code execution resulted in an error: "
           +++ "ZeroDivisionError: division by zero" +++ nl +++
           "Code:" +++ nl +++ "1/0")]
       [ExecutePython "1/0";
        ConsoleError (mkError "ZeroDivisionError: division by zero");
        OnErrorUpdate true;
        OnResultUpdate "Error: ZeroDivisionError: division by zero";
        EngineCreate
          (mkRequest true
             [mkMessage user
                ("The code execution resulted in an error: "
                 +++ "ZeroDivisionError: division by zero" +++ nl +++
                 "Code:" +++ nl +++ "1/0")]
             (Some MAX_CONTEXT_LENGTH) true);
        OnResultUpdate "I give up."; OnResultUpdate "I give up.";
        EngineGetMessage; OnResultUpdate "I give up.";
        OnUsageUpdate Stub.usage1]).
Proof.
  exact (proj1 (proj2
           (failure_signals_and_recovers Stub.failing_no_fix 0 "1/0"
              (Stub.init tt)
              (r := Stub.failure "ZeroDivisionError: division by zero")
              eq_refl eq_refl))
           (Stub.engine_saying ["I give up."] "I give up.")
           (Stub.stream_of ["I give up."]) tt "I give up." tt Stub.usage1
           eq_refl eq_refl eq_refl eq_refl eq_refl).
Defined.

(** X1.  A turn whose response holds no code.  When the engine is ready,
    the first completion finishes and the extractor finds nothing, or an
    empty code, in its final message, the turn is that completion alone:
    the response and its usage are delivered, the sandbox is not invoked,
    and the conversation is still the two initial messages. *)
Theorem turn_plain_answer :
  forall (Usage World : Type) (env : Env Usage World)
         (eng : MLCEngine Usage World) (fuel : nat) (input : string)
         (st : State Usage World) (it : AsyncIter Usage) (w1 w2 : World)
         (fin : string) (u : Usage),
    let turn := [mkMessage system Llm.SYSTEM_PROMPT; mkMessage user input] in
    engine env = Some eng ->
    create eng (llm_request turn) (world st) = (Fulfilled it, w1) ->
    iter_error it = None ->
    getMessage eng w1 = (Fulfilled fin, w2) ->
    last_usage None (chunks_of it) = Some u ->
    truthy_str (extractCodeFromMarkdown env fin) = false ->
    Llm.handleUserInput env fuel input st =
      (Normal tt,
       mkState w2 turn
         (trace st ++
          EngineCreate (llm_request turn)
          :: map OnResultUpdate (running "" (chunks_of it))
          ++ [EngineGetMessage; OnResultUpdate fin; OnUsageUpdate u])).
Proof.
  intros Usage World env eng fuel input st it w1 w2 fin u turn
         Heng Hcreate Hend Hget Hu Hcode.
  rewrite handleUserInput_run. fold turn.
  rewrite (finish_step env (Llm.runAndExplainCode env fuel) turn
             (mkState (world st) turn (trace st))
             Heng Hcreate Hend Hget Hu).
  unfold Llm.run_if_code.
  destruct (extractCodeFromMarkdown env fin) as [| |c]; try reflexivity.
  simpl in Hcode. rewrite Hcode. reflexivity.
Qed.

Lemma turn_plain_answer_witness :
  Llm.handleUserInput Stub.plain_answer 0 "What is 2+2?" (Stub.init tt) =
    (Normal tt,
     mkState tt
       [mkMessage system Llm.SYSTEM_PROMPT; mkMessage user "What is 2+2?"]
       [EngineCreate
          (llm_request
             [mkMessage system Llm.SYSTEM_PROMPT;
              mkMessage user "What is 2+2?"]);
        OnResultUpdate "The answer"; OnResultUpdate "The answer is 4.";
        OnResultUpdate "The answer is 4."; EngineGetMessage;
        OnResultUpdate "The answer is 4."; OnUsageUpdate Stub.usage1]).
Proof.
  exact (turn_plain_answer Stub.plain_answer 0 "What is 2+2?" (Stub.init tt)
           (eng := Stub.engine_saying ["The answer"; " is 4."]
                     "The answer is 4.")
           (w1 := tt) (w2 := tt) (fin := "The answer is 4.")
           (u := Stub.usage1)
           eq_refl eq_refl eq_refl eq_refl eq_refl eq_refl).
Defined.

(** X2.  A turn before the engine is initialised signals the error
    "Error: Engine not initialized" and ends: the engine and the sandbox
    are not contacted. *)
Theorem turn_engine_not_ready :
  forall (Usage World : Type) (env : Env Usage World) (fuel : nat)
         (input : string) (st : State Usage World),
    engine env = None ->
    Llm.handleUserInput env fuel input st =
      (Normal tt,
       mkState (world st)
         [mkMessage system Llm.SYSTEM_PROMPT; mkMessage user input]
         (trace st ++
          [ConsoleError (mkError "Engine not initialized");
           OnErrorUpdate true;
           OnResultUpdate "Error: Engine not initialized"])).
Proof.
  intros Usage World env fuel input st Heng.
  rewrite handleUserInput_run.
  unfold Llm.streamResponse, streamResponse_with. rewrite Heng.
  rewrite handleError_run. reflexivity.
Qed.

Lemma turn_engine_not_ready_witness :
  Llm.handleUserInput Stub.not_ready 3 "What is 2+2?" (Stub.init tt) =
    (Normal tt,
     mkState tt
       [mkMessage system Llm.SYSTEM_PROMPT; mkMessage user "What is 2+2?"]
       [ConsoleError (mkError "Engine not initialized");
        OnErrorUpdate true;
        OnResultUpdate "Error: Engine not initialized"]).
Proof.
  exact (turn_engine_not_ready Stub.not_ready 3 "What is 2+2?"
           (Stub.init tt) eq_refl).
Defined.

Lemma executions_results {Usage : Type} (l : list string) :
  executions (map (@OnResultUpdate Usage) l) = 0.
Proof. induction l as [|x l IH]; [reflexivity | exact IH]. Qed.

(** X3.  A stream error in the first completion ends the turn.  When the
    first completion does not finish ([create] rejects, the iteration
    throws, [getMessage] rejects, or no usage summary came), the turn
    ends with the error signal for that error, after the one request and
    the partial texts: the sandbox is not invoked, no usage is delivered,
    and the conversation is still the two initial messages. *)
Theorem turn_stream_error_is_terminal :
  forall (Usage World : Type) (env : Env Usage World)
         (eng : MLCEngine Usage World) (fuel : nat) (input : string)
         (st : State Usage World) (e : Error),
    let turn := [mkMessage system Llm.SYSTEM_PROMPT; mkMessage user input] in
    engine env = Some eng ->
    completion_error eng (llm_request turn) (world st) = Some e ->
    exists w pre,
      Llm.handleUserInput env fuel input st =
        (Normal tt,
         mkState w turn
           (trace st ++ pre ++
            [ConsoleError e; OnErrorUpdate true;
             OnResultUpdate ("Error: " +++ message e)]))
      /\ executions pre = 0
      /\ requests_of pre = [turn]
      /\ (forall u, ~ In (OnUsageUpdate u) pre).
Proof.
  intros Usage World env eng fuel input st e turn Heng Herr.
  rewrite handleUserInput_run. fold turn.
  destruct (completion_fails env turn
              (Llm.onResponse env (Llm.runAndExplainCode env fuel))
              (mkState (world st) turn (trace st)) Heng Herr)
    as [w [texts [mid [Hmid Hrun]]]].
  exists w, (EngineCreate (llm_request turn) :: map OnResultUpdate texts ++ mid).
  rewrite Hrun. split.
  { unfold after. simpl. rewrite <- !app_assoc. reflexivity. }
  assert (Hin : forall u, ~ In (OnUsageUpdate u)
                            (map (@OnResultUpdate Usage) texts)).
  { intros u H. apply in_map_iff in H. destruct H as [x [Hx _]].
    discriminate Hx. }
  split; [|split].
  - change (executions (map (@OnResultUpdate Usage) texts ++ mid) = 0).
    rewrite executions_app, executions_results.
    destruct Hmid as [-> | ->]; reflexivity.
  - simpl. rewrite requests_of_app, requests_of_results.
    destruct Hmid as [-> | ->]; reflexivity.
  - intros u [H|H]; [discriminate |].
    apply in_app_or in H. destruct H as [H|H]; [now apply Hin in H |].
    destruct Hmid as [-> | ->]; simpl in H; [exact H |].
    destruct H as [H|[]]. discriminate.
Qed.

Lemma turn_stream_error_is_terminal_witness :
  exists w pre,
    Llm.handleUserInput Scene.broken_stream 3 "What is 2+2?" (Stub.init tt) =
      (Normal tt,
       mkState w
         [mkMessage system Llm.SYSTEM_PROMPT; mkMessage user "What is 2+2?"]
         (trace (Stub.init tt) ++ pre ++
          [ConsoleError (mkError "device lost"); OnErrorUpdate true;
           OnResultUpdate ("Error: " +++ message (mkError "device lost"))]))
    /\ executions pre = 0
    /\ requests_of pre
       = [[mkMessage system Llm.SYSTEM_PROMPT;
           mkMessage user "What is 2+2?"]]
    /\ (forall u, ~ In (OnUsageUpdate u) pre).
Proof.
  exact (turn_stream_error_is_terminal Scene.broken_stream 3 "What is 2+2?"
           (Stub.init tt) (eng := Scene.breaking_engine)
           (e := mkError "device lost") eq_refl eq_refl).
Defined.

(** X4.  A rejection of the sandbox's promise is not recovered from.
    When [executePython] rejects, [runAndExplainCode] signals the error
    and returns: nothing is pushed on the conversation and the model is
    not asked for a fix, unlike for an answer with an [error] field. *)
Theorem sandbox_rejection_is_terminal :
  forall (Usage World : Type) (env : Env Usage World) (fuel : nat)
         (code : string) (st : State Usage World) (e : Error) (w : World),
    executePython env code (world st) = (Rejected e, w) ->
    Llm.runAndExplainCode env (S fuel) code st =
      (Normal tt,
       mkState w (conversation st)
         (trace st ++
          [ExecutePython code; ConsoleError e; OnErrorUpdate true;
           OnResultUpdate ("Error: " +++ message e)])).
Proof.
  intros Usage World env fuel code st e w Hexec.
  rewrite runAndExplainCode_step, Hexec, handleError_run, after_after.
  reflexivity.
Qed.

Lemma sandbox_rejection_is_terminal_witness :
  Llm.runAndExplainCode Scene.crashing_sandbox 5 "1/0" (Stub.init tt) =
    (Normal tt,
     mkState tt []
       [ExecutePython "1/0"; ConsoleError (mkError "pyodide is not loaded");
        OnErrorUpdate true;
        OnResultUpdate "Error: pyodide is not loaded"]).
Proof.
  exact (sandbox_rejection_is_terminal Scene.crashing_sandbox 4 "1/0"
           (Stub.init tt) (e := mkError "pyodide is not loaded") eq_refl).
Defined.

(** *** Every trace of a turn has the shape of a turn *)

Section ShapeFacts.

Context {Usage World : Type}.
Local Abbreviation M := (M Usage World).
Local Abbreviation State := (State Usage World).
Variable env : Env Usage World.

Lemma completion_shape (run : string -> M unit) :
  (forall c st1,
      exists evs,
        trace (snd (run c st1)) = trace st1 ++ evs
        /\ shape env (Running (conversation st1) c) evs) ->
  forall st : State,
  exists evs,
    trace (snd (Llm.streamResponse env (conversation st)
                  (fun s => emit (OnResultUpdate s))
                  (Llm.onResponse env run) Llm.handleError st))
      = trace st ++ evs
    /\ shape env (Completing (conversation st)) evs.
Proof.
  intros Hrun st.
  destruct (engine env) as [eng|] eqn:Heng.
  - destruct (completion_error eng (llm_request (conversation st)) (world st))
      as [e|] eqn:Herr.
    + destruct (completion_fails env (conversation st)
                  (Llm.onResponse env run) st Heng Herr)
        as [w [texts [mid [Hmid H]]]].
      rewrite H. eexists. split; [reflexivity |].
      destruct Hmid as [-> | ->]; constructor.
    + destruct (completion_finishes _ _ _ Herr)
        as [it [w1 [fin [w2 [u [Hcreate [Hend [Hget Hu]]]]]]]].
      rewrite (finish_step env run (conversation st) st
                 Heng Hcreate Hend Hget Hu).
      fold (llm_request (conversation st)).
      destruct (extractCodeFromMarkdown env fin) as [| |c] eqn:Hcode;
        try (eexists; split; [reflexivity |];
             apply shape_answer; now rewrite Hcode).
      simpl Llm.run_if_code. destruct (truthy c) eqn:Hc.
      * destruct (Hrun c (after st w2
                            (answered (llm_request (conversation st))
                               it fin u)))
          as [tail [Htail Hshape]].
        exists (answered (llm_request (conversation st)) it fin u ++ tail).
        split.
        -- cbn [snd]. rewrite Htail. unfold after. cbn [trace].
           now rewrite <- app_assoc.
        -- unfold answered. cbn [app]. rewrite <- app_assoc.
           apply shape_answer_code with (code := c);
             [exact Hcode | exact Hc | exact Hshape].
      * eexists. split; [reflexivity |].
        apply shape_answer. rewrite Hcode. exact Hc.
  - unfold Llm.streamResponse, streamResponse_with. rewrite Heng.
    rewrite handleError_run. eexists. split; [reflexivity |].
    constructor.
Qed.

Lemma runAndExplainCode_shape :
  forall (fuel : nat) (code : string) (st : State),
  exists evs,
    trace (snd (Llm.runAndExplainCode env fuel code st)) = trace st ++ evs
    /\ shape env (Running (conversation st) code) evs.
Proof.
  induction fuel as [|fuel IH]; intros code st.
  - exists []. simpl. rewrite app_nil_r. split; [reflexivity | constructor].
  - rewrite runAndExplainCode_step.
    destruct (executePython env code (world st)) as [[r|e] w].
    + destruct (truthy_str (error r)) eqn:Herr.
      * cbv zeta. rewrite handleCodeError_run.
        set (reason := template (error r)).
        set (report := mkMessage user (Llm.errorMessage reason code)).
        match goal with
        | |- context [pushed ?s report] => set (st1 := s)
        end.
        destruct (completion_shape (Llm.runAndExplainCode env fuel) IH
                    (pushed st1 report))
          as [tail [Htail Hshape]].
        change (conversation (pushed st1 report))
          with (conversation st ++ [report]) in Htail, Hshape.
        exists (ExecutePython code :: error_signal (mkError reason) ++ tail).
        split.
        -- change (conversation st1) with (conversation st).
           rewrite Htail. unfold pushed, st1, after. cbn [trace].
           rewrite <- app_assoc. reflexivity.
        -- apply shape_failed; [|exact Hshape].
           unfold reason. destruct (error r); try discriminate.
           exact Herr.
      * destruct (results r) as [| |res].
        -- eexists. split; [reflexivity | constructor].
        -- eexists. split; [reflexivity | constructor].
        -- cbv zeta. eexists. split; [reflexivity |].
           apply shape_success.
    + rewrite handleError_run, after_after.
      eexists. split; [reflexivity | constructor].
Qed.

Lemma handleUserInput_shape (fuel : nat) (input : string) (st : State) :
  shape env
    (Completing [mkMessage system Llm.SYSTEM_PROMPT; mkMessage user input])
    (emitted (Llm.handleUserInput env fuel input) st).
Proof.
  set (turn := [mkMessage system Llm.SYSTEM_PROMPT; mkMessage user input]).
  destruct (completion_shape (Llm.runAndExplainCode env fuel)
              (runAndExplainCode_shape fuel)
              (mkState (world st) turn (trace st)))
    as [evs [Htrace Hshape]].
  rewrite (emitted_of_trace (Llm.handleUserInput env fuel input) st evs).
  - exact Hshape.
  - rewrite handleUserInput_run. exact Htrace.
Qed.

End ShapeFacts.

Section ShapeConsequences.

Context {Usage World : Type}.
Local Abbreviation Event := (Event Usage).
Variable env : Env Usage World.

Lemma turn_event_results (l : list string) :
  Forall turn_event (map (@OnResultUpdate Usage) l).
Proof. induction l; simpl; constructor; [exact I | assumption]. Qed.

Lemma turn_event_error_signal (e : Error) :
  Forall turn_event (error_signal (Usage := Usage) e).
Proof. repeat constructor. Qed.

Lemma turn_event_request (msgs : list Message) :
  turn_event (EngineCreate (Usage := Usage) (llm_request msgs)).
Proof. repeat split. Qed.

Lemma shape_events (p : Phase) (evs : list Event) :
  shape env p evs -> Forall turn_event evs.
Proof.
  induction 1;
    repeat first
      [ apply turn_event_error_signal
      | apply turn_event_results
      | apply Forall_app; split
      | apply Forall_cons; [first [apply turn_event_request | exact I | reflexivity] |]
      | apply Forall_nil
      | assumption ].
  destruct (truthy output); repeat constructor.
Qed.

Lemma shape_counts (p : Phase) (evs : list Event) :
  shape env p evs ->
  match p with
  | Completing _ =>
      executions evs <= length (requests_of evs)
      /\ length (requests_of evs) <= executions evs + 1
  | Running _ _ =>
      length (requests_of evs) <= executions evs
      /\ executions evs <= length (requests_of evs) + 1
  end.
Proof.
  induction 1.
  - simpl. unfold executions. simpl. lia.
  - change (executions (map (@OnResultUpdate Usage) texts ++ error_signal e)
            <= S (length (requests_of
                            (map (@OnResultUpdate Usage) texts
                             ++ error_signal e)))
            /\ S (length (requests_of
                            (map (@OnResultUpdate Usage) texts
                             ++ error_signal e)))
               <= executions (map (@OnResultUpdate Usage) texts
                              ++ error_signal e) + 1).
    rewrite executions_app, requests_of_app, executions_results,
      requests_of_results. unfold executions. simpl. lia.
  - change (executions (map (@OnResultUpdate Usage) texts
                        ++ EngineGetMessage :: error_signal e)
            <= S (length (requests_of
                            (map (@OnResultUpdate Usage) texts
                             ++ EngineGetMessage :: error_signal e)))
            /\ S (length (requests_of
                            (map (@OnResultUpdate Usage) texts
                             ++ EngineGetMessage :: error_signal e)))
               <= executions (map (@OnResultUpdate Usage) texts
                              ++ EngineGetMessage :: error_signal e) + 1).
    rewrite executions_app, requests_of_app, executions_results,
      requests_of_results. unfold executions. simpl. lia.
  - change (executions (map (@OnResultUpdate Usage) texts
                        ++ [EngineGetMessage; OnResultUpdate fin;
                            OnUsageUpdate u])
            <= S (length (requests_of
                            (map (@OnResultUpdate Usage) texts
                             ++ [EngineGetMessage; OnResultUpdate fin;
                                 OnUsageUpdate u])))
            /\ S (length (requests_of
                            (map (@OnResultUpdate Usage) texts
                             ++ [EngineGetMessage; OnResultUpdate fin;
                                 OnUsageUpdate u])))
               <= executions (map (@OnResultUpdate Usage) texts
                              ++ [EngineGetMessage; OnResultUpdate fin;
                                  OnUsageUpdate u]) + 1).
    rewrite executions_app, requests_of_app, executions_results,
      requests_of_results. unfold executions. simpl. lia.
  - change (executions (map (@OnResultUpdate Usage) texts
                        ++ [EngineGetMessage; OnResultUpdate fin;
                            OnUsageUpdate u] ++ tail)
            <= S (length (requests_of
                            (map (@OnResultUpdate Usage) texts
                             ++ [EngineGetMessage; OnResultUpdate fin;
                                 OnUsageUpdate u] ++ tail)))
            /\ S (length (requests_of
                            (map (@OnResultUpdate Usage) texts
                             ++ [EngineGetMessage; OnResultUpdate fin;
                                 OnUsageUpdate u] ++ tail)))
               <= executions (map (@OnResultUpdate Usage) texts
                              ++ [EngineGetMessage; OnResultUpdate fin;
                                  OnUsageUpdate u] ++ tail) + 1).
    rewrite !executions_app, !requests_of_app, executions_results,
      requests_of_results.
    change (executions [EngineGetMessage; OnResultUpdate fin;
                        OnUsageUpdate u]) with 0.
    change (requests_of [EngineGetMessage; OnResultUpdate fin;
                         OnUsageUpdate u]) with (@nil (list Message)).
    simpl. simpl in IHshape. lia.
  - simpl. unfold executions. simpl. lia.
  - simpl. unfold executions. simpl. lia.
  - simpl. unfold executions. simpl. lia.
  - destruct (truthy output); simpl; unfold executions; simpl; lia.
  - change (length (requests_of (error_signal (mkError reason) ++ tail))
            <= S (executions (error_signal (mkError reason) ++ tail))
            /\ S (executions (error_signal (mkError reason) ++ tail))
               <= length (requests_of
                            (error_signal (mkError reason) ++ tail)) + 1).
    rewrite executions_app, requests_of_app.
    change (executions (error_signal (Usage := Usage) (mkError reason)))
      with 0.
    change (requests_of (error_signal (Usage := Usage) (mkError reason)))
      with (@nil (list Message)).
    simpl. simpl in IHshape. lia.
Qed.

End ShapeConsequences.

Section Provenance.

Context {Usage World : Type}.
Local Abbreviation Event := (Event Usage).
Variable env : Env Usage World.

Lemma no_execution_split (l1 : list Event) :
  no_execution l1 ->
  forall l2 pre code post,
    l1 ++ l2 = pre ++ ExecutePython code :: post ->
    exists pre2, pre = l1 ++ pre2 /\ l2 = pre2 ++ ExecutePython code :: post.
Proof.
  induction 1 as [|a l1 Ha Hl1 IH]; intros l2 pre code post Heq.
  - exists pre. split; [reflexivity | exact Heq].
  - destruct pre as [|x pre]; simpl in Heq; injection Heq as Hx Heq.
    + subst a. discriminate Ha.
    + subst x. destruct (IH _ _ _ _ Heq) as [pre2 [Hpre Hl2]].
      exists pre2. split; [now rewrite Hpre | exact Hl2].
Qed.

Lemma caused_no_execution (ctx evs : list Event) :
  no_execution evs -> caused_in env ctx evs.
Proof.
  intros Hno pre code post Heq. exfalso.
  rewrite <- (app_nil_r evs) in Heq.
  destruct (no_execution_split Hno _ _ _ _ Heq) as [pre2 [_ H]].
  destruct pre2; discriminate H.
Qed.

Lemma caused_app (ctx l1 l2 : list Event) :
  no_execution l1 ->
  caused_in env (ctx ++ l1) l2 ->
  caused_in env ctx (l1 ++ l2).
Proof.
  intros Hno H pre code post Heq.
  destruct (no_execution_split Hno _ _ _ _ Heq) as [pre2 [Hpre Hl2]].
  destruct (H _ _ _ Hl2) as [pre' [fin [u [Hctx Hrest]]]].
  exists pre', fin, u. split; [|exact Hrest].
  rewrite Hpre, app_assoc. exact Hctx.
Qed.

Lemma caused_execution (ctx rest : list Event) (code : string) :
  (exists pre' fin u,
      ctx = pre' ++ [OnResultUpdate fin; OnUsageUpdate u]
      /\ extractCodeFromMarkdown env fin = value code
      /\ truthy code = true) ->
  caused_in env (ctx ++ [ExecutePython code]) rest ->
  caused_in env ctx (ExecutePython code :: rest).
Proof.
  intros [p0 [fin [u [Hctx Hcode]]]] Hrest pre c post Heq.
  destruct pre as [|x pre]; simpl in Heq; injection Heq as Hx Heq.
  - subst c. exists p0, fin, u. rewrite app_nil_r. now split.
  - subst x. destruct (Hrest _ _ _ Heq) as [pre' [fin' [u' [H1 H2]]]].
    exists pre', fin', u'. split; [|exact H2].
    rewrite <- H1, <- app_assoc. reflexivity.
Qed.

Lemma no_execution_results (l : list string) :
  no_execution (map (@OnResultUpdate Usage) l).
Proof. induction l; constructor; [reflexivity | assumption]. Qed.

Lemma no_execution_error_signal (e : Error) :
  no_execution (error_signal (Usage := Usage) e).
Proof. repeat constructor. Qed.

Lemma shape_caused (p : Phase) (evs : list Event) :
  shape env p evs ->
  forall ctx,
    match p with
    | Completing _ => True
    | Running _ code =>
        exists pre' fin u,
          ctx = pre' ++ [OnResultUpdate fin; OnUsageUpdate u]
          /\ extractCodeFromMarkdown env fin = value code
          /\ truthy code = true
    end ->
    caused_in env ctx evs.
Proof.
  induction 1; intros ctx Hctx.
  - apply caused_no_execution. apply no_execution_error_signal.
  - apply caused_no_execution. constructor; [reflexivity |].
    apply Forall_app. split;
      [apply no_execution_results | apply no_execution_error_signal].
  - apply caused_no_execution. constructor; [reflexivity |].
    apply Forall_app. split; [apply no_execution_results |].
    constructor; [reflexivity | apply no_execution_error_signal].
  - apply caused_no_execution. constructor; [reflexivity |].
    apply Forall_app. split; [apply no_execution_results |].
    repeat constructor.
  - rewrite app_assoc.
    change (caused_in env ctx
              ((EngineCreate (llm_request msgs)
                :: map OnResultUpdate texts
                   ++ [EngineGetMessage; OnResultUpdate fin;
                       OnUsageUpdate u])
               ++ tail)).
    apply caused_app.
    + constructor; [reflexivity |].
      apply Forall_app. split; [apply no_execution_results |].
      repeat constructor.
    + apply IHshape.
      exists (ctx ++ EngineCreate (llm_request msgs)
                     :: map OnResultUpdate texts ++ [EngineGetMessage]),
        fin, u.
      split; [|now split].
      rewrite <- app_assoc. simpl. rewrite <- app_assoc. reflexivity.
  - apply caused_no_execution. constructor.
  - apply caused_execution; [exact Hctx |].
    apply caused_no_execution. apply no_execution_error_signal.
  - apply caused_execution; [exact Hctx |].
    apply caused_no_execution. constructor.
  - apply caused_execution; [exact Hctx |].
    apply caused_no_execution.
    destruct (truthy output); repeat constructor.
  - apply caused_execution; [exact Hctx |].
    apply caused_app; [apply no_execution_error_signal |].
    apply IHshape. exact I.
Qed.

(** The conversations sent to the engine are the phase's conversation
    with error reports after it. *)
Lemma shape_requests (p : Phase) (evs : list Event) :
  shape env p evs ->
  Forall (fun ms => exists reports,
                      ms = base p ++ reports /\ Forall error_report reports)
    (requests_of evs).
Proof.
  assert (Hbase : forall msgs : list Message,
             exists reports,
               msgs = msgs ++ reports /\ Forall error_report reports).
  { intros msgs. exists []. rewrite app_nil_r. split; constructor. }
  induction 1; simpl.
  - constructor.
  - constructor; [apply Hbase |].
    rewrite requests_of_app, requests_of_results. constructor.
  - constructor; [apply Hbase |].
    rewrite requests_of_app, requests_of_results. constructor.
  - constructor; [apply Hbase |].
    rewrite requests_of_app, requests_of_results. constructor.
  - constructor; [apply Hbase |].
    rewrite requests_of_app, requests_of_results.
    simpl. exact IHshape.
  - constructor.
  - constructor.
  - constructor.
  - destruct (truthy output); constructor.
  - eapply Forall_impl; [|exact IHshape].
    intros ms [reports [Hms Hrep]]. simpl in Hms.
    exists (mkMessage user (Llm.errorMessage reason code) :: reports).
    split.
    + rewrite Hms, <- app_assoc. reflexivity.
    + constructor; [|exact Hrep]. now exists reason, code.
Qed.

End Provenance.

(** X5.  Only extracted code is executed.  In every turn, followed for
    any number of sandbox invocations, each sandbox invocation comes
    right after the delivery of a final response and its usage, and the
    code invoked is what the extractor returned for that response, and is
    not empty: the response itself, or any other text, is never
    executed. *)
Theorem executed_code_was_extracted :
  forall (Usage World : Type) (env : Env Usage World) (fuel : nat)
         (input : string) (st : State Usage World)
         (pre : list (Event Usage)) (code : string)
         (post : list (Event Usage)),
    emitted (Llm.handleUserInput env fuel input) st
      = pre ++ ExecutePython code :: post ->
    exists pre' fin u,
      pre = pre' ++ [OnResultUpdate fin; OnUsageUpdate u]
      /\ extractCodeFromMarkdown env fin = value code
      /\ truthy code = true.
Proof.
  intros Usage World env fuel input st pre code post Heq.
  pose proof (shape_caused (handleUserInput_shape env fuel input st) [] I)
    as H.
  exact (H pre code post Heq).
Qed.

Lemma executed_code_was_extracted_witness :
  exists pre' fin u,
    [EngineCreate
       (llm_request
          [mkMessage system Llm.SYSTEM_PROMPT;
           mkMessage user "What is 2+2?"]);
     OnResultUpdate (Stub.fence "print(2+2)");
     OnResultUpdate (Stub.fence "print(2+2)");
     EngineGetMessage;
     OnResultUpdate (Stub.fence "print(2+2)");
     OnUsageUpdate Stub.usage1]
    = pre' ++ [OnResultUpdate fin; OnUsageUpdate u]
    /\ extractCodeFromMarkdown Stub.code_then_success fin
       = value ("print(2+2)" +++ nl)
    /\ truthy ("print(2+2)" +++ nl) = true.
Proof.
  apply (executed_code_was_extracted Stub.code_then_success 3
           "What is 2+2?" (Stub.init tt) _ _
           [OnCodeOutputUpdate ("4" +++ nl +++ nl +++ "None")]).
  reflexivity.
Defined.

(** X6.  The error flag is never cleared during a turn.  Every call of
    [onErrorUpdate] in a turn passes [true]: once an error has been
    signalled, also one that the model then recovers from, nothing in
    the turn resets the flag. *)
Theorem error_flag_is_never_cleared :
  forall (Usage World : Type) (env : Env Usage World) (fuel : nat)
         (input : string) (st : State Usage World) (b : bool),
    In (OnErrorUpdate b) (emitted (Llm.handleUserInput env fuel input) st) ->
    b = true.
Proof.
  intros Usage World env fuel input st b Hin.
  pose proof (shape_events (handleUserInput_shape env fuel input st)) as H.
  rewrite Forall_forall in H. exact (H _ Hin).
Qed.

Lemma error_flag_is_never_cleared_witness :
  In (OnErrorUpdate (Usage := nat) true)
    (emitted (Llm.handleUserInput Stub.always_failing 2 "What is 1/0?")
       (Stub.init tt))
  /\ true = true.
Proof.
  assert (Hin : In (OnErrorUpdate (Usage := nat) true)
                  (emitted
                     (Llm.handleUserInput Stub.always_failing 2
                        "What is 1/0?")
                     (Stub.init tt))).
  { vm_compute. tauto. }
  split.
  - exact Hin.
  - exact (@error_flag_is_never_cleared nat unit Stub.always_failing 2
             "What is 1/0?" (Stub.init tt) true Hin).
Defined.

(** X7.  What is sent to the engine.  Every request of a turn asks for a
    stream with usage and [max_tokens] 32768, and its conversation is the
    system prompt, the user's question and then error reports only: no
    request holds a message of the assistant role, neither a response of
    the model nor the success summary. *)
Theorem requests_hold_error_reports_only :
  forall (Usage World : Type) (env : Env Usage World) (fuel : nat)
         (input : string) (st : State Usage World),
    let turn := [mkMessage system Llm.SYSTEM_PROMPT; mkMessage user input] in
    let evs := emitted (Llm.handleUserInput env fuel input) st in
    (forall req,
        In (EngineCreate req) evs ->
        req_stream req = true /\ req_include_usage req = true
        /\ req_max_tokens req = Some 32768%N)
    /\ (forall ms,
          In ms (requests_of evs) ->
          (exists reports,
              ms = turn ++ reports /\ Forall error_report reports)
          /\ (forall m, In m ms -> role m <> assistant)).
Proof.
  intros Usage World env fuel input st turn evs.
  pose proof (handleUserInput_shape env fuel input st) as Hshape.
  fold turn evs in Hshape. split.
  - intros req Hin. pose proof (shape_events Hshape) as H.
    rewrite Forall_forall in H. exact (H _ Hin).
  - intros ms Hin. pose proof (shape_requests Hshape) as H.
    rewrite Forall_forall in H. destruct (H _ Hin) as [reports [Hms Hrep]].
    split; [now exists reports |].
    intros m Hm. rewrite Hms in Hm. simpl in Hm.
    destruct Hm as [<- | [<- | Hm]]; try discriminate.
    rewrite Forall_forall in Hrep.
    destruct (Hrep _ Hm) as [e [c ->]]. discriminate.
Qed.

Lemma requests_hold_error_reports_only_witness :
  (exists reports,
      [mkMessage system Llm.SYSTEM_PROMPT; mkMessage user "What is 1/0?";
       mkMessage user
         (Llm.errorMessage "ZeroDivisionError: division by zero"
            ("1/0" +++ nl))]
      = [mkMessage system Llm.SYSTEM_PROMPT; mkMessage user "What is 1/0?"]
        ++ reports
      /\ Forall error_report reports)
  /\ (forall m,
        In m
          [mkMessage system Llm.SYSTEM_PROMPT; mkMessage user "What is 1/0?";
           mkMessage user
             (Llm.errorMessage "ZeroDivisionError: division by zero"
                ("1/0" +++ nl))] ->
        role m <> assistant).
Proof.
  apply (proj2 (requests_hold_error_reports_only Stub.always_failing 1
                  "What is 1/0?" (Stub.init tt))).
  vm_compute. tauto.
Defined.

(** X8.  Requests and sandbox invocations alternate.  In every turn the
    sandbox is invoked at most as often as the engine was asked, and the
    engine is asked at most once more than the sandbox was invoked. *)
Theorem requests_and_executions_alternate :
  forall (Usage World : Type) (env : Env Usage World) (fuel : nat)
         (input : string) (st : State Usage World),
    let evs := emitted (Llm.handleUserInput env fuel input) st in
    executions evs <= length (requests_of evs)
    /\ length (requests_of evs) <= executions evs + 1.
Proof.
  intros Usage World env fuel input st evs.
  exact (shape_counts (handleUserInput_shape env fuel input st)).
Qed.

(** X9.  A failure followed by a working fix.  When the sandbox answers
    with an error, the completion on the conversation with the error
    report finishes with a response that holds code, and the sandbox
    runs that code with success, the loop ends there: the conversation
    has gained the error report and then the success summary, the error
    has been signalled and is not taken back, and the output of the fix
    is signalled last. *)
Theorem failure_then_fix :
  forall (Usage World : Type) (env : Env Usage World)
         (eng : MLCEngine Usage World) (fuel : nat) (code : string)
         (st : State Usage World) (r : PyodideResult) (w1 : World)
         (it : AsyncIter Usage) (w2 : World) (fin : string) (w3 : World)
         (u : Usage) (fixedCode : string) (r2 : PyodideResult)
         (res : ExecResults) (w4 : World),
    let reason := template (error r) in
    let report :=
      mkMessage user
        ("The code execution resulted in an error: " +++ reason +++ nl +++
         "Code:" +++ nl +++ code) in
    let req := llm_request (conversation st ++ [report]) in
    let output := Llm.composed_output res in
    executePython env code (world st) = (Fulfilled r, w1) ->
    truthy_str (error r) = true ->
    engine env = Some eng ->
    create eng req w1 = (Fulfilled it, w2) ->
    iter_error it = None ->
    getMessage eng w2 = (Fulfilled fin, w3) ->
    last_usage None (chunks_of it) = Some u ->
    extractCodeFromMarkdown env fin = value fixedCode ->
    truthy fixedCode = true ->
    executePython env fixedCode w3 = (Fulfilled r2, w4) ->
    truthy_str (error r2) = false ->
    results r2 = value res ->
    Llm.runAndExplainCode env (S (S fuel)) code st =
      (Normal tt,
       mkState w4
         (conversation st ++ [report; Llm.successMessage output])
         (trace st ++
          [ExecutePython code; ConsoleError (mkError reason);
           OnErrorUpdate true; OnResultUpdate ("Error: " +++ reason)]
          ++ EngineCreate req
             :: map OnResultUpdate (running "" (chunks_of it))
          ++ [EngineGetMessage; OnResultUpdate fin; OnUsageUpdate u;
              ExecutePython fixedCode]
          ++ if truthy output then [OnCodeOutputUpdate (trim output)]
             else [])).
Proof.
  intros Usage World env eng fuel code st r w1 it w2 fin w3 u fixedCode r2
         res w4 reason report req output
         Hexec Herr Heng Hcreate Hend Hget Hu Hcode Hfixed Hexec2 Herr2 Hres.
  rewrite (failure_step env (S fuel) code st Hexec Herr). cbv zeta.
  change (mkMessage user (Llm.errorMessage (template (error r)) code))
    with report.
  fold reason.
  rewrite (finish_step env (Llm.runAndExplainCode env (S fuel))
             (conversation st ++ [report])
             (mkState w1 (conversation st ++ [report])
                (trace st ++ signalled code reason))
             Heng Hcreate Hend Hget Hu).
  rewrite Hcode. unfold Llm.run_if_code. rewrite Hfixed.
  rewrite runAndExplainCode_step.
  change (world (after _ w3 _)) with w3.
  rewrite Hexec2, Herr2, Hres. cbv zeta. fold output.
  unfold pushed, after, signalled, answered.
  cbn [snd world conversation trace].
  f_equal. f_equal.
  - rewrite <- app_assoc. reflexivity.
  - fold req. rewrite <- !app_assoc. simpl.
    rewrite <- !app_assoc. reflexivity.
Qed.

Lemma failure_then_fix_witness :
  Llm.runAndExplainCode Scene.fixed_on_retry 2 "1/0" (Stub.init 0) =
    (Normal tt,
     mkState 2
       [mkMessage user
          ("The code execution resulted in an error: "
           +++ "ZeroDivisionError: division by zero" +++ nl +++
           "Code:" +++ nl +++ "1/0");
        mkMessage assistant
          "The code executed successfully with the following output: 1"]
       [ExecutePython "1/0";
        ConsoleError (mkError "ZeroDivisionError: division by zero");
        OnErrorUpdate true;
        OnResultUpdate "Error: ZeroDivisionError: division by zero";
        EngineCreate
          (llm_request
             [mkMessage user
                ("The code execution resulted in an error: "
                 +++ "ZeroDivisionError: division by zero" +++ nl +++
                 "Code:" +++ nl +++ "1/0")]);
        OnResultUpdate (Stub.fence "1//1");
        OnResultUpdate (Stub.fence "1//1");
        EngineGetMessage;
        OnResultUpdate (Stub.fence "1//1");
        OnUsageUpdate Stub.usage1;
        ExecutePython ("1//1" +++ nl);
        OnCodeOutputUpdate "1"]).
Proof.
  exact (failure_then_fix Scene.fixed_on_retry 0 "1/0" (Stub.init 0)
           (eng := Scene.fixing_engine)
           (r := Stub.failure "ZeroDivisionError: division by zero")
           (w1 := 1) (it := Stub.stream_of [Stub.fence "1//1"]) (w2 := 1)
           (fin := Stub.fence "1//1") (w3 := 1) (u := Stub.usage1)
           (fixedCode := "1//1" +++ nl) (r2 := Stub.success "" "1")
           (res := mkExecResults (value "") (value "1")) (w4 := 2)
           eq_refl eq_refl eq_refl eq_refl eq_refl eq_refl eq_refl eq_refl
           eq_refl eq_refl eq_refl eq_refl).
Defined.

(** ** Further properties of the Completion Streamer *)

(** X10.  One outcome per call.  Whatever the engine does, and also
    without an engine, a call of [streamResponse] ends with exactly one
    call of [onError] or [onFinish], and that call is its last action:
    never both, never twice, and no [onUpdate] follows it. *)
Theorem streamer_one_outcome :
  forall (Usage World : Type) (env : Env Usage World)
         (max_tokens : option N) (msgs : list Message)
         (st : State Usage World),
  exists pre ev,
    emitted (record_stream env max_tokens msgs) st = pre ++ [ev]
    /\ is_outcome ev = true
    /\ filter is_outcome pre = []
    /\ fst (record_stream env max_tokens msgs st) = Normal tt.
Proof.
  intros Usage World env max_tokens msgs st.
  destruct (engine env) as [eng|] eqn:Heng.
  - pose proof (record_stream_run env max_tokens msgs st Heng) as Hrun.
    cbv zeta in Hrun.
    set (req := mkRequest true msgs max_tokens true) in *.
    assert (Hpre : forall l tail,
               filter is_outcome tail = [] ->
               filter is_outcome
                 ((EngineCreate (Usage := Usage) req :: map OnUpdate l)
                  ++ tail) = []).
    { intros l tail Htail. rewrite filter_app. simpl.
      now rewrite no_outcome_among_updates, Htail. }
    destruct (create eng req (world st)) as [[it|e] w].
    + destruct (iter_error it) as [e|].
      * exists (EngineCreate req :: map OnUpdate (running "" (chunks_of it))),
          (OnError e).
        rewrite (emitted_after _ (f_equal snd Hrun)), Hrun.
        repeat split. rewrite <- (app_nil_r (_ :: _)). now apply Hpre.
      * destruct (getMessage eng w) as [[fin|e] w'].
        -- exists ((EngineCreate req
                    :: map OnUpdate (running "" (chunks_of it)))
                   ++ [EngineGetMessage]).
           eexists.
           rewrite (emitted_after _ (f_equal snd Hrun)), Hrun.
           split; [rewrite <- app_assoc; reflexivity |].
           split; [destruct (last_usage None (chunks_of it)); reflexivity |].
           split; [now apply Hpre | reflexivity].
        -- exists ((EngineCreate req
                    :: map OnUpdate (running "" (chunks_of it)))
                   ++ [EngineGetMessage]), (OnError e).
           rewrite (emitted_after _ (f_equal snd Hrun)), Hrun.
           split; [rewrite <- app_assoc; reflexivity |].
           split; [reflexivity |].
           split; [now apply Hpre | reflexivity].
    + exists [EngineCreate req], (OnError e).
      rewrite (emitted_after _ (f_equal snd Hrun)), Hrun.
      repeat split.
  - exists [], (OnError (mkError "Engine not initialized")).
    unfold emitted, record_stream, streamResponse_with. rewrite Heng.
    simpl. rewrite skipn_app, skipn_all, Nat.sub_diag. repeat split.
Qed.

(** X11.  Where the engine's exceptions go.  A rejection of [create]
    goes to [onError] with nothing before it; when the iteration throws,
    the texts of the chunks before the throw have been handed to
    [onUpdate], the thrown error goes to [onError], [getMessage] is not
    called and [onFinish] is not called, also when a usage summary had
    arrived; a rejection of [getMessage] goes to [onError] after all the
    texts, also when a usage summary had arrived. *)
Theorem engine_exceptions_go_to_onError :
  forall (Usage World : Type) (env : Env Usage World)
         (eng : MLCEngine Usage World) (max_tokens : option N)
         (msgs : list Message) (st : State Usage World),
    let req := mkRequest true msgs max_tokens true in
    let evs := emitted (record_stream env max_tokens msgs) st in
    engine env = Some eng ->
    (forall e w,
        create eng req (world st) = (Rejected e, w) ->
        evs = [EngineCreate req; OnError e])
    /\ (forall it w e,
          create eng req (world st) = (Fulfilled it, w) ->
          iter_error it = Some e ->
          evs = EngineCreate req
                :: map OnUpdate (running "" (chunks_of it)) ++ [OnError e])
    /\ (forall it w e w',
          create eng req (world st) = (Fulfilled it, w) ->
          iter_error it = None ->
          getMessage eng w = (Rejected e, w') ->
          evs = EngineCreate req
                :: map OnUpdate (running "" (chunks_of it))
                ++ [EngineGetMessage; OnError e]).
Proof.
  intros Usage World env eng max_tokens msgs st req evs Heng.
  pose proof (record_stream_run env max_tokens msgs st Heng) as Hrun.
  cbv zeta in Hrun. fold req in Hrun.
  split; [|split].
  - intros e w Hcreate. rewrite Hcreate in Hrun.
    unfold evs. now rewrite (emitted_after _ (f_equal snd Hrun)).
  - intros it w e Hcreate Hit. rewrite Hcreate, Hit in Hrun.
    unfold evs. now rewrite (emitted_after _ (f_equal snd Hrun)).
  - intros it w e w' Hcreate Hit Hget. rewrite Hcreate, Hit, Hget in Hrun.
    unfold evs. now rewrite (emitted_after _ (f_equal snd Hrun)).
Qed.

Lemma engine_exceptions_go_to_onError_witness :
  emitted (record_stream Scene.refused None []) (Stub.init tt)
    = [EngineCreate (mkRequest true [] None true);
       OnError (mkError "out of memory")]
  /\ emitted (record_stream Scene.broken_stream None []) (Stub.init tt)
     = [EngineCreate (mkRequest true [] None true);
        OnUpdate "The ans"; OnError (mkError "device lost")]
  /\ emitted (record_stream Scene.forgotten None []) (Stub.init tt)
     = [EngineCreate (mkRequest true [] None true);
        OnUpdate "4"; OnUpdate "4"; EngineGetMessage;
        OnError (mkError "no message")].
Proof.
  split; [|split].
  - exact (proj1
             (engine_exceptions_go_to_onError Scene.refused None []
                (Stub.init tt) (eng := Scene.refusing_engine) eq_refl)
             (mkError "out of memory") tt eq_refl).
  - exact (proj1 (proj2
             (engine_exceptions_go_to_onError Scene.broken_stream None []
                (Stub.init tt) (eng := Scene.breaking_engine) eq_refl))
             _ tt (mkError "device lost") eq_refl eq_refl).
  - exact (proj2 (proj2
             (engine_exceptions_go_to_onError Scene.forgotten None []
                (Stub.init tt) (eng := Scene.forgetful_engine) eq_refl))
             _ tt (mkError "no message") tt eq_refl eq_refl eq_refl).
Defined.

(** ** Properties of the earlier revision *)

Section LegacyTurn.

Context {Usage World : Type}.
Local Abbreviation M := (M Usage World).
Local Abbreviation State := (State Usage World).
Local Abbreviation Event := (Event Usage).
Variable env : Env Usage World.

Lemma legacy_handleError_run (prefix : string) (e : Error) (st : State) :
  Legacy.handleError e prefix st =
  (Normal tt, after st (world st) (legacy_error_signal prefix e)).
Proof.
  unfold Legacy.handleError, legacy_error_signal, bind, emit, after; simpl.
  now rewrite <- !app_assoc.
Qed.

(** One call of [streamResponse] whose three callbacks only emit. *)
Lemma emitting_stream_run (max_tokens : option N) (msgs : list Message)
    (f : string -> Event) (g : string -> Usage -> list Event)
    (h : Error -> list Event)
    (onFinish : string -> Usage -> M unit) (onError : Error -> M unit)
    (st : State) (eng : MLCEngine Usage World) :
  engine env = Some eng ->
  (forall s u st1, onFinish s u st1 = (Normal tt, after st1 (world st1) (g s u))) ->
  (forall e st1, onError e st1 = (Normal tt, after st1 (world st1) (h e))) ->
  let req := mkRequest true msgs max_tokens true in
  streamResponse_with env max_tokens msgs (fun s => emit (f s))
    onFinish onError st =
  match create eng req (world st) with
  | (Rejected e, w) => (Normal tt, after st w (EngineCreate req :: h e))
  | (Fulfilled it, w) =>
      let pre := EngineCreate req :: map f (running "" (chunks_of it)) in
      match iter_error it with
      | Some e => (Normal tt, after st w (pre ++ h e))
      | None =>
          match getMessage eng w with
          | (Rejected e, w') =>
              (Normal tt, after st w' (pre ++ EngineGetMessage :: h e))
          | (Fulfilled fin, w') =>
              (Normal tt,
               after st w'
                 (pre ++ EngineGetMessage ::
                  match last_usage None (chunks_of it) with
                  | Some u => g fin u
                  | None => h (mkError "Usage data not available")
                  end))
          end
      end
  end.
Proof.
  intros Heng HF HE req.
  rewrite (streamResponse_run env max_tokens msgs f _ _ st Heng).
  fold req. destruct (create eng req (world st)) as [[it|e] w].
  - cbv zeta. destruct (iter_error it) as [e|].
    + rewrite HE, after_after. reflexivity.
    + destruct (getMessage eng w) as [[fin|e] w'].
      * destruct (last_usage None (chunks_of it)) as [u|].
        -- unfold try_catch. rewrite HF, !after_after. reflexivity.
        -- rewrite HE, !after_after. reflexivity.
      * rewrite HE, !after_after. reflexivity.
  - rewrite HE, after_after. reflexivity.
Qed.

Lemma executions_explanations (l : list string) :
  executions (map (@OnExplanationUpdate Usage) l) = 0.
Proof. induction l as [|x l IH]; [reflexivity | exact IH]. Qed.

Lemma requests_of_explanations (l : list string) :
  requests_of (map (@OnExplanationUpdate Usage) l) = [].
Proof. induction l as [|x l IH]; [reflexivity | exact IH]. Qed.

(** The explanation is one request at most and no sandbox invocation. *)
Lemma generateExplanation_settles (msgs : list Message) (ai : string)
    (res : ExecResults) (st : State) :
  settles (Legacy.generateExplanation env msgs ai res) st 0 1.
Proof.
  unfold settles, Legacy.generateExplanation. cbv zeta.
  unfold Legacy.streamResponse.
  set (msgs' := msgs ++ _).
  destruct (engine env) as [eng|] eqn:Heng.
  - rewrite (emitting_stream_run None msgs' OnExplanationUpdate
               (fun fin u => [OnExplanationUpdate fin; OnUsageUpdate u])
               (legacy_error_signal "Error generating explanation")
               _ _ st Heng).
    2: { intros s u st1. unfold bind, emit, after; simpl.
         now rewrite <- app_assoc. }
    2: { intros e st1. apply legacy_handleError_run. }
    assert (Hcount : forall l tail,
               executions tail = 0 -> requests_of tail = [] ->
               executions
                 ((EngineCreate (Usage := Usage)
                     (mkRequest true msgs' None true)
                   :: map OnExplanationUpdate l) ++ tail) <= 0
               /\ length
                    (requests_of
                       ((EngineCreate (Usage := Usage)
                           (mkRequest true msgs' None true)
                         :: map OnExplanationUpdate l) ++ tail)) <= 1).
    { intros l tail He Hr. rewrite executions_app, requests_of_app.
      change (executions (EngineCreate (Usage := Usage)
                            (mkRequest true msgs' None true)
                          :: map OnExplanationUpdate l))
        with (executions (map (@OnExplanationUpdate Usage) l)).
      simpl requests_of.
      rewrite executions_explanations, requests_of_explanations, He, Hr.
      simpl. lia. }
    destruct (create eng _ (world st)) as [[it|e] w].
    + cbv zeta. destruct (iter_error it) as [e|].
      * do 2 eexists. split; [reflexivity |]. now apply Hcount.
      * destruct (getMessage eng w) as [[fin|e] w'].
        -- do 2 eexists. split; [reflexivity |]. apply Hcount;
             destruct (last_usage None (chunks_of it)); reflexivity.
        -- do 2 eexists. split; [reflexivity |]. now apply Hcount.
    + do 2 eexists. split; [reflexivity |].
      unfold executions. simpl. lia.
  - unfold streamResponse_with. rewrite Heng. rewrite legacy_handleError_run.
    do 2 eexists. split; [reflexivity |]. unfold executions. simpl. lia.
Qed.

(** One invocation of the earlier [runAndExplainCode], by the sandbox's
    answer. *)
Lemma legacy_runAndExplainCode_step (code : string) (st : State) :
  Legacy.runAndExplainCode env code st =
  match executePython env code (world st) with
  | (Rejected e, w) =>
      (Normal tt, after st w (ExecutePython code :: legacy_error_signal "" e))
  | (Fulfilled r, w) =>
      if truthy_str (error r) then
        (Normal tt,
         after st w
           (ExecutePython code
            :: legacy_error_signal "" (mkError (template (error r)))))
      else
        match results r with
        | value res =>
            Legacy.generateExplanation env (conversation st)
              ("```python" +++ nl +++ code +++ nl +++ "```")
              (mkExecResults (stdout res) (result res))
              (after st w
                 [ExecutePython code;
                  OnCodeOutputUpdate
                    ("Output:" +++ nl +++ template (stdout res) +++ nl +++
                     "Result: " +++ template (result res))])
        | _ => (Normal tt, after st w [ExecutePython code])
        end
  end.
Proof.
  unfold Legacy.runAndExplainCode.
  rewrite try_catch_bind, emit_after. cbv beta iota.
  rewrite try_catch_bind. unfold await at 1.
  change (world (after st (world st) [ExecutePython code])) with (world st).
  destruct (executePython env code (world st)) as [[r|e] w];
    cbv beta iota;
    change (mkState w (conversation (after st (world st) [ExecutePython code]))
              (trace (after st (world st) [ExecutePython code])))
      with (after st w [ExecutePython code]).
  - destruct (truthy_str (error r)).
    + unfold try_catch. rewrite legacy_handleError_run, after_after.
      reflexivity.
    + destruct (results r) as [| |res]; try reflexivity.
      rewrite try_catch_bind, emit_after. cbv beta iota.
      rewrite after_after. rewrite try_catch_id.
      * reflexivity.
      * intros e. unfold bind, get_messages. cbv beta iota.
        unfold Legacy.generateExplanation.
        apply streamResponse_never_throws.
        intros e0. apply legacy_handleError_never_throws.
  - rewrite legacy_handleError_run, after_after. reflexivity.
Qed.

Lemma settles_after (m : M unit) (st : State) (w : World)
    (evs : list Event) (a b a' b' : nat) :
  settles m (after st w evs) a b ->
  executions evs + a <= a' ->
  length (requests_of evs) + b <= b' ->
  exists w' evs',
    m (after st w evs) = (Normal tt, after st w' evs')
    /\ executions evs' <= a'
    /\ length (requests_of evs') <= b'.
Proof.
  intros [w' [tail [Hm [He Hr]]]] Ha Hb.
  exists w', (evs ++ tail). rewrite Hm, after_after.
  split; [reflexivity |].
  rewrite executions_app, requests_of_app, length_app. lia.
Qed.

Lemma legacy_runAndExplainCode_settles (code : string) (st : State) :
  settles (Legacy.runAndExplainCode env code) st 1 1.
Proof.
  unfold settles. rewrite legacy_runAndExplainCode_step.
  destruct (executePython env code (world st)) as [[r|e] w].
  - destruct (truthy_str (error r)).
    + do 2 eexists. split; [reflexivity |]. unfold executions. simpl. lia.
    + destruct (results r) as [| |res];
        try (do 2 eexists; split; [reflexivity |];
             unfold executions; simpl; lia).
      eapply settles_after.
      * apply generateExplanation_settles.
      * unfold executions. simpl. lia.
      * simpl. lia.
  - do 2 eexists. split; [reflexivity |]. unfold executions. simpl. lia.
Qed.

End LegacyTurn.

Section LegacyBounds.

Context {Usage World : Type}.
Local Abbreviation M := (M Usage World).
Local Abbreviation State := (State Usage World).
Local Abbreviation Event := (Event Usage).
Variable env : Env Usage World.

(** A completion whose [onFinish] settles and whose [onError] is the
    earlier [handleError] settles, with one request more. *)
Lemma legacy_stream_settles (msgs : list Message)
    (onFinish : string -> Usage -> M unit) (prefix : string) (st : State)
    (a b : nat) :
  (forall s u st1, settles (onFinish s u) st1 a b) ->
  settles
    (Legacy.streamResponse env msgs (fun s => emit (OnResultUpdate s))
       onFinish (fun e => Legacy.handleError e prefix))
    st a (S b).
Proof.
  intros HF. unfold Legacy.streamResponse.
  destruct (engine env) as [eng|] eqn:Heng.
  - unfold settles.
    rewrite (streamResponse_run env None msgs OnResultUpdate _ _ st Heng).
    set (req := mkRequest true msgs None true).
    assert (Hquiet : forall l tail,
               executions tail = 0 -> requests_of tail = [] ->
               executions
                 ((EngineCreate (Usage := Usage) req
                   :: map OnResultUpdate l) ++ tail) = 0
               /\ length
                    (requests_of
                       ((EngineCreate (Usage := Usage) req
                         :: map OnResultUpdate l) ++ tail)) = 1).
    { intros l tail He Hr. rewrite executions_app, requests_of_app.
      change (executions (EngineCreate (Usage := Usage) req
                          :: map OnResultUpdate l))
        with (executions (map (@OnResultUpdate Usage) l)).
      simpl requests_of.
      rewrite executions_results, requests_of_results, He, Hr.
      split; reflexivity. }
    destruct (create eng req (world st)) as [[it|e] w].
    + cbv zeta. destruct (iter_error it) as [e|].
      * rewrite legacy_handleError_run, after_after.
        do 2 eexists. split; [reflexivity |].
        destruct (Hquiet (running "" (chunks_of it))
                    (legacy_error_signal prefix e) eq_refl eq_refl)
          as [He Hr].
        rewrite He, Hr. lia.
      * destruct (getMessage eng w) as [[fin|e] w'].
        -- destruct (last_usage None (chunks_of it)) as [u|].
           ++ rewrite after_after.
              destruct (HF fin u
                          (after st w'
                             ((EngineCreate req
                               :: map OnResultUpdate
                                    (running "" (chunks_of it)))
                              ++ [EngineGetMessage])))
                as [w2 [tail [Hrun [He Hr]]]].
              unfold try_catch. rewrite Hrun, after_after.
              do 2 eexists. split; [reflexivity |].
              destruct (Hquiet (running "" (chunks_of it))
                          [EngineGetMessage] eq_refl eq_refl)
                as [He0 Hr0].
              rewrite executions_app, requests_of_app, length_app, He0, Hr0.
              lia.
           ++ rewrite legacy_handleError_run, !after_after.
              do 2 eexists. split; [reflexivity |].
              destruct (Hquiet (running "" (chunks_of it))
                          ([EngineGetMessage]
                           ++ legacy_error_signal prefix
                                (mkError "Usage data not available"))
                          eq_refl eq_refl)
                as [He Hr].
              rewrite He, Hr. lia.
        -- rewrite legacy_handleError_run, !after_after.
           do 2 eexists. split; [reflexivity |].
           destruct (Hquiet (running "" (chunks_of it))
                       ([EngineGetMessage] ++ legacy_error_signal prefix e)
                       eq_refl eq_refl)
             as [He Hr].
           rewrite He, Hr. lia.
    + rewrite legacy_handleError_run, after_after.
      do 2 eexists. split; [reflexivity |]. unfold executions. simpl. lia.
  - unfold settles, streamResponse_with. rewrite Heng.
    rewrite legacy_handleError_run.
    do 2 eexists. split; [reflexivity |]. unfold executions. simpl. lia.
Qed.

(** The [onFinish] closure of the earlier [handleUserInput]. *)
Lemma legacy_onFinish_settles (s : string) (u : Usage) (st1 : State) :
  settles
    (detached
       (emit (OnResultUpdate s) ;;
        emit (OnUsageUpdate u) ;;
        Llm.run_if_code (Legacy.runAndExplainCode env)
          (extractCodeFromMarkdown env s)))
    st1 1 1.
Proof.
  assert (Hrun : forall st2,
             settles (Llm.run_if_code (Legacy.runAndExplainCode env)
                        (extractCodeFromMarkdown env s)) st2 1 1).
  { intros st2. destruct (extractCodeFromMarkdown env s) as [| |c];
      try (exists (world st2), []; rewrite after_nil;
           unfold executions; simpl; repeat split; lia).
    simpl. destruct (truthy c).
    - apply legacy_runAndExplainCode_settles.
    - exists (world st2), []. rewrite after_nil.
      unfold executions; simpl; repeat split; lia. }
  destruct (@settles_after _ _ _ st1 (world st1)
              [OnResultUpdate s; OnUsageUpdate u] 1 1 1 1
              (Hrun _))
    as [w' [evs' [Hm [He Hr]]]];
    [unfold executions; simpl; lia | simpl; lia |].
  exists w', evs'. split; [|split; assumption].
  unfold detached. f_equal.
  change (after st1 w' evs') with (snd (Normal tt, after st1 w' evs')).
  rewrite <- Hm. unfold bind, emit, after; simpl.
  now rewrite <- app_assoc.
Qed.

Lemma legacy_handleUserInput_run (input : string) (st : State) :
  let turn :=
    [mkMessage system Legacy.SYSTEM_PROMPT; mkMessage user input] in
  Legacy.handleUserInput env input st =
  Legacy.streamResponse env turn
    (fun s => emit (OnResultUpdate s))
    (fun aiResponse usage =>
       detached
         (emit (OnResultUpdate aiResponse) ;;
          emit (OnUsageUpdate usage) ;;
          Llm.run_if_code (Legacy.runAndExplainCode env)
            (extractCodeFromMarkdown env aiResponse)))
    (fun e => Legacy.handleError e "")
    (mkState (world st) turn (trace st)).
Proof.
  intros turn.
  change (Legacy.handleUserInput env input st)
    with (try_catch
            (messages <- get_messages ;;
             Legacy.streamResponse env messages
               (fun s => emit (OnResultUpdate s))
               (fun aiResponse usage =>
                  detached
                    (emit (OnResultUpdate aiResponse) ;;
                     emit (OnUsageUpdate usage) ;;
                     Llm.run_if_code (Legacy.runAndExplainCode env)
                       (extractCodeFromMarkdown env aiResponse)))
               (fun e => Legacy.handleError e ""))
            (fun e => Legacy.handleError e "")
            (mkState (world st) turn (trace st))).
  rewrite try_catch_id.
  - reflexivity.
  - intros e. unfold bind, get_messages. cbv beta iota.
    apply streamResponse_never_throws.
    intros e0. apply legacy_handleError_never_throws.
Qed.

End LegacyBounds.

(** X12.  A turn of the earlier revision always ends, and is small.
    Whatever the engine and the sandbox do, [handleUserInput] of the
    earlier revision returns without throwing, having invoked the sandbox
    at most once and asked the engine at most twice; and the conversation
    it built is never added to: it is the system prompt and the user's
    question at the end as at the start (the explanation request goes
    into a copy). *)
Theorem legacy_turn_is_bounded :
  forall (Usage World : Type) (env : Env Usage World) (input : string)
         (st : State Usage World),
  exists w evs,
    Legacy.handleUserInput env input st =
      (Normal tt,
       mkState w
         [mkMessage system Legacy.SYSTEM_PROMPT; mkMessage user input]
         (trace st ++ evs))
    /\ executions evs <= 1
    /\ length (requests_of evs) <= 2.
Proof.
  intros Usage World env input st.
  rewrite legacy_handleUserInput_run.
  destruct (legacy_stream_settles env
              [mkMessage system Legacy.SYSTEM_PROMPT; mkMessage user input]
              _ ""
              (mkState (world st)
                 [mkMessage system Legacy.SYSTEM_PROMPT;
                  mkMessage user input]
                 (trace st))
              (legacy_onFinish_settles env))
    as [w [evs [Hm [He Hr]]]].
  exists w, evs. split; [exact Hm | split; assumption].
Qed.

(** X13.  The earlier revision does not recover from a failure.  When
    the sandbox answers with an error, the earlier [runAndExplainCode]
    raises the error flag, shows the reason as it is (without the
    "Error: " of the current revision) and returns: the engine is not
    asked again and the conversation is unchanged. *)
Theorem legacy_failure_is_terminal :
  forall (Usage World : Type) (env : Env Usage World) (code : string)
         (st : State Usage World) (r : PyodideResult) (w : World),
    executePython env code (world st) = (Fulfilled r, w) ->
    truthy_str (error r) = true ->
    Legacy.runAndExplainCode env code st =
      (Normal tt,
       mkState w (conversation st)
         (trace st ++
          [ExecutePython code; OnErrorUpdate true;
           OnResultUpdate (template (error r))])).
Proof.
  intros Usage World env code st r w Hexec Herr.
  rewrite legacy_runAndExplainCode_step, Hexec, Herr. reflexivity.
Qed.

Lemma legacy_failure_is_terminal_witness :
  Legacy.runAndExplainCode Stub.always_failing "1/0" (Stub.init tt) =
    (Normal tt,
     mkState tt []
       [ExecutePython "1/0"; OnErrorUpdate true;
        OnResultUpdate "ZeroDivisionError: division by zero"]).
Proof.
  exact (legacy_failure_is_terminal Stub.always_failing "1/0" (Stub.init tt)
           (r := Stub.failure "ZeroDivisionError: division by zero")
           eq_refl eq_refl).
Defined.

(** X14.  A failed explanation in the earlier revision.  When the code
    ran with success and the completion that asks for the explanation
    does not finish, the output of the code has been shown, the partial
    explanation texts have gone to the explanation channel, and the error
    is raised on the result channel as "Error generating explanation: "
    followed by the error's message; the conversation is unchanged. *)
Theorem legacy_explanation_error :
  forall (Usage World : Type) (env : Env Usage World)
         (eng : MLCEngine Usage World) (code : string)
         (st : State Usage World) (r : PyodideResult) (res : ExecResults)
         (w : World) (e : Error),
    let req :=
      legacy_request
        (conversation st ++
         [mkMessage assistant ("```python" +++ nl +++ code +++ nl +++ "```");
          mkMessage user
            (Legacy.EXPLANATION_PROMPT (result res) (stdout res))]) in
    executePython env code (world st) = (Fulfilled r, w) ->
    truthy_str (error r) = false ->
    results r = value res ->
    engine env = Some eng ->
    completion_error eng req w = Some e ->
    exists w' texts mid,
      (mid = [] \/ mid = [EngineGetMessage])
      /\ Legacy.runAndExplainCode env code st =
           (Normal tt,
            mkState w' (conversation st)
              (trace st ++
               [ExecutePython code;
                OnCodeOutputUpdate
                  ("Output:" +++ nl +++ template (stdout res) +++ nl +++
                   "Result: " +++ template (result res));
                EngineCreate req]
               ++ map OnExplanationUpdate texts ++ mid
               ++ [OnErrorUpdate true;
                   OnResultUpdate
                     ("Error generating explanation: " +++ message e)])).
Proof.
  intros Usage World env eng code st r res w e req
         Hexec Herr Hres Heng Hcomp.
  rewrite legacy_runAndExplainCode_step, Hexec, Herr, Hres.
  unfold Legacy.generateExplanation. cbv zeta.
  cbn [stdout result]. unfold Legacy.streamResponse.
  rewrite (emitting_stream_run env None _ OnExplanationUpdate
             (fun fin u => [OnExplanationUpdate fin; OnUsageUpdate u])
             (legacy_error_signal "Error generating explanation")
             _ _ _ Heng).
  2: { intros s u st1. unfold bind, emit, after; simpl.
       now rewrite <- app_assoc. }
  2: { intros e0 st1. apply legacy_handleError_run. }
  change (world (after st w _)) with w.
  unfold completion_error in Hcomp. unfold legacy_request in req.
  fold req. fold req in Hcomp.
  destruct (create eng req w) as [[it|e0] w1].
  - cbv zeta. destruct (iter_error it) as [e0|].
    + injection Hcomp as ->.
      exists w1, (running "" (chunks_of it)), []. split; [now left |].
      rewrite after_after. reflexivity.
    + destruct (getMessage eng w1) as [[fin|e0] w2].
      * destruct (last_usage None (chunks_of it)) as [u|]; [discriminate |].
        injection Hcomp as <-.
        exists w2, (running "" (chunks_of it)), [EngineGetMessage].
        split; [now right |].
        rewrite after_after. reflexivity.
      * injection Hcomp as ->.
        exists w2, (running "" (chunks_of it)), [EngineGetMessage].
        split; [now right |].
        rewrite after_after. reflexivity.
  - injection Hcomp as ->. exists w1, [], []. split; [now left |].
    rewrite after_after. reflexivity.
Qed.

Lemma legacy_explanation_error_witness :
  exists w' texts mid,
    (mid = [] \/ mid = [EngineGetMessage])
    /\ Legacy.runAndExplainCode Scene.explanation_breaks "print(4)"
         (Stub.init tt) =
         (Normal tt,
          mkState w' []
            (trace (Stub.init tt) ++
             [ExecutePython "print(4)";
              OnCodeOutputUpdate
                ("Output:" +++ nl +++ "4" +++ nl +++ "Result: " +++ "None");
              EngineCreate
                (legacy_request
                   ([] ++
                    [mkMessage assistant
                       ("```python" +++ nl +++ "print(4)" +++ nl +++ "```");
                     mkMessage user
                       (Legacy.EXPLANATION_PROMPT (value "None")
                          (value "4"))]))]
             ++ map OnExplanationUpdate texts ++ mid
             ++ [OnErrorUpdate true;
                 OnResultUpdate
                   ("Error generating explanation: "
                    +++ message (mkError "device lost"))])).
Proof.
  exact (legacy_explanation_error Scene.explanation_breaks "print(4)"
           (Stub.init tt) (eng := Scene.breaking_engine)
           (r := Stub.success "4" "None")
           (res := mkExecResults (value "4") (value "None"))
           (e := mkError "device lost")
           eq_refl eq_refl eq_refl eq_refl eq_refl).
Defined.


(** ** Loading the model *)

Section LoadFacts.

Context {Usage World Sink : Type}.

Local Abbreviation LState := (Loading.LState Usage World Sink).

Lemma progress_forwarded (reports : list Loading.InitProgressReport) :
  forall st : LState,
    fold_left (fun s r => Loading.handleEngineInitProgress r s) reports st
    = Loading.mkLState (Loading.l_world st) (Loading.globals st)
        (Loading.l_trace st
         ++ forwarded (Loading.progressCallback (Loading.globals st)) reports).
Proof.
  induction reports as [|r reports IH]; intros st.
  - simpl. unfold forwarded.
    destruct (Loading.progressCallback (Loading.globals st));
      simpl; rewrite app_nil_r; now destruct st.
  - simpl. rewrite IH. unfold Loading.handleEngineInitProgress, forwarded.
    destruct (Loading.progressCallback (Loading.globals st)) as [cb|] eqn:Hcb;
      cbn [Loading.l_world Loading.globals Loading.l_trace].
    + rewrite Hcb. simpl. now rewrite <- app_assoc.
    + rewrite Hcb. reflexivity.
Qed.

End LoadFacts.

Lemma initializeWebLLMEngine_run :
  forall (Usage World Sink : Type) (fresh : Loading.Loadable Usage World)
         (model : string) (temperature topP : Loading.number)
         (st : Loading.LState Usage World Sink)
         (reports : list Loading.InitProgressReport)
         (settled : Settled unit) (w : World),
    Loading.reload fresh model
      (Loading.mkConfig temperature topP 32768 (Loading.dec 11 1))
      (Loading.l_world st)
    = ((reports, settled), w) ->
    Loading.initializeWebLLMEngine fresh model temperature topP st
    = (match settled with
       | Fulfilled _ => Normal tt
       | Rejected e => Thrown e
       end,
       Loading.mkLState w
         (Loading.mkGlobals (Some fresh)
            (Loading.progressCallback (Loading.globals st)))
         (Loading.l_trace st
          ++ forwarded (Loading.progressCallback (Loading.globals st)) reports
          ++ [match settled with
              | Fulfilled _ => Loading.CompletionCalled
              | Rejected e => Loading.ConsoleErrorLoading e
              end])).
Proof.
  intros Usage World Sink fresh model temperature topP st reports settled w
         Hreload.
  unfold Loading.initializeWebLLMEngine. cbv zeta.
  cbn [Loading.l_world Loading.globals Loading.l_trace].
  change MAX_CONTEXT_LENGTH with 32768%N. rewrite Hreload.
  rewrite progress_forwarded.
  cbn [Loading.l_world Loading.globals Loading.l_trace
       Loading.progressCallback].
  destruct settled; rewrite <- app_assoc; reflexivity.
Qed.


(** X15.  [initializeWebLLMEngine] reloads the engine constructed with
    the model given and the configuration made of the temperature and the
    top-p given, [max_tokens] 32768 and [repetition_penalty] 1.1.  Each
    progress report of the load is forwarded, in order, to the registered
    progress callback, and dropped when none is registered.  When the
    load succeeds [onCompletion] is called, once and last, and the
    promise is fulfilled; when it fails the error is logged,
    [onCompletion] is not called and the promise is rejected with the
    same error.  In both cases the variable [engine] holds the engine
    constructed. *)
Theorem initialize_runs_the_load :
  forall (Usage World Sink : Type) (fresh : Loading.Loadable Usage World)
         (model : string) (temperature topP : Loading.number)
         (st : Loading.LState Usage World Sink)
         (reports : list Loading.InitProgressReport)
         (settled : Settled unit) (w : World),
    Loading.reload fresh model
      (Loading.mkConfig temperature topP 32768 (Loading.dec 11 1))
      (Loading.l_world st)
    = ((reports, settled), w) ->
    Loading.initializeWebLLMEngine fresh model temperature topP st
    = (match settled with
       | Fulfilled _ => Normal tt
       | Rejected e => Thrown e
       end,
       Loading.mkLState w
         (Loading.mkGlobals (Some fresh)
            (Loading.progressCallback (Loading.globals st)))
         (Loading.l_trace st
          ++ forwarded (Loading.progressCallback (Loading.globals st)) reports
          ++ [match settled with
              | Fulfilled _ => Loading.CompletionCalled
              | Rejected e => Loading.ConsoleErrorLoading e
              end])).
Proof. exact initializeWebLLMEngine_run. Qed.

Lemma initialize_runs_the_load_witness :
  Loading.initializeWebLLMEngine LoadScene.failing_load Loading.MODEL
    (Loading.dec 7 1) (Loading.dec 1 0)
    (Loading.mount LoadScene.before_load)
  = (Thrown (mkError "Failed to fetch"),
     Loading.mkLState tt
       (Loading.mkGlobals (Some LoadScene.failing_load)
          (Some Loading.setLoadingProgress))
       [Loading.ProgressCalled Loading.setLoadingProgress
          "Fetching param cache[0/24]";
        Loading.ConsoleErrorLoading (mkError "Failed to fetch")]).
Proof.
  exact (initialize_runs_the_load LoadScene.failing_load Loading.MODEL
           (Loading.dec 7 1) (Loading.dec 1 0)
           (Loading.mount LoadScene.before_load) eq_refl).
Defined.

(** X16.  [setProgressCallback] replaces the registered callback and
    touches nothing else; registering twice keeps the later callback; a
    load started afterwards keeps the registration. *)
Theorem progress_callback_is_replaced :
  forall (Usage World Sink : Type) (c1 c2 : Sink)
         (fresh : Loading.Loadable Usage World) (model : string)
         (temperature topP : Loading.number)
         (st : Loading.LState Usage World Sink),
    Loading.setProgressCallback c2 (Loading.setProgressCallback c1 st)
    = Loading.mkLState (Loading.l_world st)
        (Loading.mkGlobals (Loading.engine_var (Loading.globals st)) (Some c2))
        (Loading.l_trace st)
    /\ Loading.progressCallback
         (Loading.globals
            (snd (Loading.initializeWebLLMEngine fresh model temperature topP
                    (Loading.setProgressCallback c2 st))))
       = Some c2.
Proof.
  intros. split; [reflexivity |].
  now rewrite initialize_assigns_engine.
Qed.

(** X17.  [handleLoadModel] of the hook [useModelLoading], once the hook
    is mounted (its [setLoadingProgress] is the registered callback):
    when the load succeeds the hook ends loaded, not loading, with the
    progress text "Model loaded successfully"; when it fails the hook
    ends not loading, its progress text is the message of the error, and
    [isModelLoaded] is what it was before.  The model requested is
    "Qwen2.5-Coder-1.5B-Instruct-q4f16_1-MLC" with temperature 0.7 and
    top-p 1. *)
Theorem load_model_settles_the_hook :
  forall (Usage World : Type) (fresh : Loading.Loadable Usage World)
         (h : Loading.Hook) (st : Loading.LState Usage World Loading.Setter)
         (reports : list Loading.InitProgressReport)
         (settled : Settled unit) (w : World),
    Loading.progressCallback (Loading.globals st)
      = Some Loading.setLoadingProgress ->
    Loading.reload fresh "Qwen2.5-Coder-1.5B-Instruct-q4f16_1-MLC"
      (Loading.mkConfig (Loading.dec 7 1) (Loading.dec 1 0) 32768
         (Loading.dec 11 1))
      (Loading.l_world st)
    = ((reports, settled), w) ->
    fst (Loading.handleLoadModel fresh h st)
    = match settled with
      | Fulfilled _ =>
          Loading.mkHook true false "Model loaded successfully"
      | Rejected e =>
          Loading.mkHook (Loading.isModelLoaded h) false (message e)
      end.
Proof.
  intros Usage World fresh h st reports settled w Hcb Hreload.
  unfold Loading.handleLoadModel. cbv zeta.
  change Loading.MODEL with "Qwen2.5-Coder-1.5B-Instruct-q4f16_1-MLC".
  rewrite (initializeWebLLMEngine_run fresh _ _ _ st Hreload).
  cbn [Loading.l_trace fst].
  rewrite skipn_app, skipn_all, Nat.sub_diag. cbn [skipn app].
  rewrite Hcb. unfold forwarded. rewrite fold_left_app.
  set (h0 := Loading.mkHook (Loading.isModelLoaded h) true
               (Loading.loadingProgress h)).
  assert (Hfold : forall rs (k : Loading.Hook),
            Loading.isModelLoaded
              (fold_left Loading.react
                 (map (fun r => Loading.ProgressCalled
                                  Loading.setLoadingProgress (Loading.text r))
                    rs) k)
            = Loading.isModelLoaded k).
  { induction rs as [|r rs IH]; intros k; [reflexivity |].
    simpl. now rewrite IH. }
  destruct settled as [u|e]; simpl.
  - reflexivity.
  - now rewrite Hfold.
Qed.

Lemma load_model_settles_the_hook_witness :
  fst (Loading.handleLoadModel LoadScene.good_load Loading.initial
         (Loading.mount LoadScene.before_load))
    = Loading.mkHook true false "Model loaded successfully".
Proof.
  exact (load_model_settles_the_hook LoadScene.good_load Loading.initial
           (Loading.mount LoadScene.before_load) eq_refl eq_refl).
Defined.

(** X18.  A hook that is not mounted shows no progress of the load: with
    no callback registered the reports are dropped, and all the hook
    learns of a load is its success or the message of its error. *)
Theorem unmounted_hook_shows_no_progress :
  forall (Usage World : Type) (fresh : Loading.Loadable Usage World)
         (h : Loading.Hook) (st : Loading.LState Usage World Loading.Setter)
         (reports : list Loading.InitProgressReport)
         (settled : Settled unit) (w : World),
    Loading.progressCallback (Loading.globals st) = None ->
    Loading.reload fresh Loading.MODEL
      (Loading.mkConfig (Loading.dec 7 1) (Loading.dec 1 0) 32768
         (Loading.dec 11 1))
      (Loading.l_world st)
    = ((reports, settled), w) ->
    Loading.l_trace (snd (Loading.handleLoadModel fresh h st))
    = Loading.l_trace st
      ++ [match settled with
          | Fulfilled _ => Loading.CompletionCalled
          | Rejected e => Loading.ConsoleErrorLoading e
          end].
Proof.
  intros Usage World fresh h st reports settled w Hcb Hreload.
  unfold Loading.handleLoadModel. cbv zeta.
  rewrite (initializeWebLLMEngine_run fresh _ _ _ st Hreload).
  cbn [snd Loading.l_trace]. rewrite Hcb. reflexivity.
Qed.

Lemma unmounted_hook_shows_no_progress_witness :
  Loading.l_trace
    (snd (Loading.handleLoadModel LoadScene.good_load Loading.initial
            LoadScene.before_load))
  = [Loading.CompletionCalled].
Proof.
  exact (unmounted_hook_shows_no_progress LoadScene.good_load Loading.initial
           LoadScene.before_load eq_refl eq_refl).
Defined.
